(** * Appointment administration backend: lifecycle, session gate, login

    A shallow embedding of [server.js] (the serverless revision: cached
    database connection, [ensureDbConnection], recent-appointments route).

    - The [Appointment] collection is a finite map from [_id] to the
      schema's fields; Mongoose's [find], [sort], [limit],
      [findByIdAndUpdate] and [findByIdAndDelete] act on it.
    - A store operation is a promise: it resolves with a value or rejects.
      Whether [mongoose.connect] succeeds and whether a query is answered
      is decided by the storage server, so both are inputs of a request
      ([connectSucceeds], [queryAnswered]); a rejected query (time-out,
      lost socket) leaves the collection as it was.
    - [findByIdAndUpdate] and [findByIdAndDelete] cast the [:id] of the
      path to an ObjectId before they query: a string that cannot be cast
      rejects the promise, and two spellings of one ObjectId name one
      record. The cast belongs to the driver, so the application is
      modelled for any cast, [castObjectId]; the examples use
      [ObjectId_of_hex], the cast of 24 hexadecimal digits.
    - Handlers run in a state-and-exception monad over the process state
      ([cachedDb] and the collection); [try_catch] is the [try]/[catch]
      of the source.
    - Express hands a request to the middleware list of the route that
      matched; [Route] is the result of that match, with [:id] as its
      argument. [req.cookies] and [req.body] are the objects that
      [cookieParser] and [express.json] leave on the request: a [Request]
      is one whose body was parsed and whose parameters were decoded.
    - Console logging and the static file middleware are left out; a page
      is the path handed to [res.sendFile]. *)

From stdpp Require Import base gmap strings list fin_maps sorting.

Local Open Scope string_scope.
Local Open Scope Z_scope.

(** ** JavaScript values read from cookies and request bodies *)

Inductive JsValue :=
| JsUndefined
| JsNull
| JsBool (b : bool)
| JsNumber (n : Z)
| JsString (s : string)
| JsObject.

Global Instance JsValue_eq_dec : EqDecision JsValue.
Proof. solve_decision. Defined.

(** [v === s] for a string literal or string-valued variable [s]. *)
Definition strict_eq_string (v : JsValue) (s : string) : bool :=
  match v with
  | JsString t => bool_decide (t = s)
  | _ => false
  end.

(** Property read [o.k]: a missing property is [undefined]. *)
Definition prop (o : gmap string JsValue) (k : string) : JsValue :=
  default JsUndefined (o !! k).

(** [process.env.K || d]: unset and empty values are both falsy. *)
Definition env_or (penv : gmap string string) (k d : string) : string :=
  match penv !! k with
  | Some s => if bool_decide (s = "") then d else s
  | None => d
  end.

(** ** Appointment schema *)

Inductive Status := pending | accepted | done.

Global Instance Status_eq_dec : EqDecision Status.
Proof. solve_decision. Defined.

(** Dates are milliseconds since the epoch. *)
Record Appointment := mkAppointment {
  name : string;
  email : string;
  phone : string;
  service : string;
  date : Z;
  time : string;
  status : Status;
  createdAt : Z
}.

Abbreviation ObjectId := string.

(** A document as returned by a query: its [_id] and its fields. *)
Definition Doc : Type := ObjectId * Appointment.

(** The update document [{ status: s }]. *)
Definition set_status (s : Status) (a : Appointment) : Appointment :=
  {| name := name a; email := email a; phone := phone a;
     service := service a; date := date a; time := time a;
     status := s; createdAt := createdAt a |}.

(** ** Process state, request environment, promises *)

Inductive Connection := MongooseConnection.

Record World := mkWorld {
  cachedDb : option Connection;
  appointments : gmap string Appointment
}.

Record Env := mkEnv {
  process_env : gmap string string;
  readyState : Z;
  connectSucceeds : bool;
  queryAnswered : bool
}.

Inductive Exn := ConnectError | QueryError | CastError.

Inductive Outcome (A : Type) :=
| Resolved (a : A)
| Rejected (e : Exn).
Arguments Resolved {A} a.
Arguments Rejected {A} e.

Definition M (A : Type) : Type := World -> Outcome A * World.

Definition ret {A} (a : A) : M A := fun w => (Resolved a, w).

Definition throw {A} (e : Exn) : M A := fun w => (Rejected e, w).

Definition bind {A B} (m : M A) (k : A -> M B) : M B :=
  fun w =>
    match m w with
    | (Resolved a, w') => k a w'
    | (Rejected e, w') => (Rejected e, w')
    end.

Definition try_catch {A} (m : M A) (h : Exn -> M A) : M A :=
  fun w =>
    match m w with
    | (Resolved a, w') => (Resolved a, w')
    | (Rejected e, w') => h e w'
    end.

Notation "x <- m ;; k" := (bind m (fun x => k))
  (at level 100, m at next level, right associativity).

(** ** MongoDB connection with caching *)

(** [mongoose.connect(uri, options)]. *)
Definition mongoose_connect (env : Env) : M Connection :=
  if connectSucceeds env then ret MongooseConnection else throw ConnectError.

Definition set_cachedDb (c : Connection) : M unit :=
  fun w => (Resolved tt, {| cachedDb := Some c; appointments := appointments w |}).

Definition connectToDatabase (env : Env) : M Connection :=
  fun w =>
    match cachedDb w, readyState env =? 1 with
    | Some c, true => ret c w
    | _, _ =>
        try_catch
          (connection <- mongoose_connect env ;;
           _ <- set_cachedDb connection ;;
           ret connection)
          (fun error => throw error) w
    end.

(** ** ObjectIds *)

(** A hexadecimal digit in lower case, or nothing for any other character. *)
Definition hex_digit (c : Stdlib.Strings.Ascii.ascii) : option Stdlib.Strings.Ascii.ascii :=
  let n := Stdlib.Strings.Ascii.N_of_ascii c in
  if ((48 <=? n) && (n <=? 57))%N then Some c
  else if ((97 <=? n) && (n <=? 102))%N then Some c
  else if ((65 <=? n) && (n <=? 70))%N then Some (Stdlib.Strings.Ascii.ascii_of_N (n + 32))
  else None.

Fixpoint hex_lower (s : string) : option string :=
  match s with
  | EmptyString => Some EmptyString
  | String c rest =>
      match hex_digit c, hex_lower rest with
      | Some c', Some rest' => Some (String c' rest')
      | _, _ => None
      end
  end.

(** The cast of a string of 24 hexadecimal digits, in either case, to the
    ObjectId it spells; other strings are not cast. *)
Definition ObjectId_of_hex (s : string) : option ObjectId :=
  if (String.length s =? 24)%nat then hex_lower s else None.

Section Application.

(** The driver's cast of a path parameter to an ObjectId. *)
Variable castObjectId : string -> option ObjectId.

Set Default Proof Using "Type".

(** ** The Appointment model *)

(** Sort orders of the three list queries. *)
Definition createdAt_desc (a b : Doc) : Prop := createdAt b.2 <= createdAt a.2.

Definition date_time_asc (a b : Doc) : Prop :=
  date a.2 < date b.2 \/ (date a.2 = date b.2 /\ String.le (time a.2) (time b.2)).

Global Instance createdAt_desc_dec : RelDecision createdAt_desc.
Proof. intros a b. unfold createdAt_desc. apply _. Defined.

Global Instance date_time_asc_dec : RelDecision date_time_asc.
Proof. intros a b. unfold date_time_asc. apply _. Defined.

Inductive SortSpec :=
| sort_createdAt_desc      (* { createdAt: -1 } *)
| sort_date_time_asc.      (* { date: 1, time: 1 } *)

Definition sort_docs (s : SortSpec) (l : list Doc) : list Doc :=
  match s with
  | sort_createdAt_desc => merge_sort createdAt_desc l
  | sort_date_time_asc => merge_sort date_time_asc l
  end.

Definition has_status (s : Status) (d : Doc) : Prop := status d.2 = s.

Global Instance has_status_dec s d : Decision (has_status s d).
Proof. unfold has_status. apply _. Defined.

(** Documents matching [{ status: s }]. *)
Definition matching (s : Status) (coll : gmap string Appointment) : list Doc :=
  filter (has_status s) (map_to_list coll).

Definition apply_limit (lim : option nat) (l : list Doc) : list Doc :=
  match lim with
  | Some n => take n l
  | None => l
  end.

(** [Appointment.find({ status: s }).sort(spec)], optionally [.limit(n)]. *)
Definition Appointment_find (env : Env) (s : Status) (spec : SortSpec)
    (lim : option nat) : M (list Doc) :=
  fun w =>
    if queryAnswered env
    then (Resolved (apply_limit lim (sort_docs spec (matching s (appointments w)))), w)
    else (Rejected QueryError, w).

(** [Appointment.findByIdAndUpdate(id, { status: s }, { new: true })]. *)
Definition Appointment_findByIdAndUpdate (env : Env) (id : string)
    (s : Status) : M (option Doc) :=
  fun w =>
    match castObjectId id with
    | None => (Rejected CastError, w)
    | Some oid =>
        if queryAnswered env
        then
          match appointments w !! oid with
          | Some a =>
              (Resolved (Some (oid, set_status s a)),
               {| cachedDb := cachedDb w;
                  appointments := <[oid := set_status s a]> (appointments w) |})
          | None => (Resolved None, w)
          end
        else (Rejected QueryError, w)
    end.

(** [Appointment.findByIdAndDelete(id)]. *)
Definition Appointment_findByIdAndDelete (env : Env) (id : string)
    : M (option Doc) :=
  fun w =>
    match castObjectId id with
    | None => (Rejected CastError, w)
    | Some oid =>
        if queryAnswered env
        then
          match appointments w !! oid with
          | Some a =>
              (Resolved (Some (oid, a)),
               {| cachedDb := cachedDb w; appointments := delete oid (appointments w) |})
          | None => (Resolved None, w)
          end
        else (Rejected QueryError, w)
    end.

(** ** Requests and responses *)

Inductive Route :=
| GET_login
| POST_login
| GET_home
| GET_see_requests
| GET_see_appointments
| GET_see_recent_appointments
| GET_api_requests
| POST_api_requests_accept (id : string)
| POST_api_requests_reject (id : string)
| GET_api_appointments
| POST_api_appointments_done (id : string)
| GET_api_recent_appointments
| POST_logout
| GET_root
| Unmatched.

Record Request := mkRequest {
  route : Route;
  cookies : gmap string JsValue;
  body : gmap string JsValue
}.

Record CookieOptions := mkCookieOptions {
  httpOnly : bool;
  secure : bool;
  maxAge : Z;
  sameSite : string
}.

Inductive Header :=
| SetCookie (cname cvalue : string) (options : CookieOptions)
| ClearCookie (cname : string).

Inductive Body :=
| NoBody
| Json_docs (docs : list Doc)                 (* an array of appointments *)
| Json_success                                (* { success: true } *)
| Json_success_appointment (appointment : Doc) (* { success: true, appointment } *)
| Json_error (error : string)                 (* { error } *)
| Json_failure (message : string)             (* { success: false, message } *)
| File (segments : list string)
| Redirect (location : string)
| Text (text : string).

Record Response := mkResponse {
  statusCode : Z;
  headers : list Header;
  payload : Body
}.

(** The response object a handler starts from. *)
Definition res : Response := {| statusCode := 200; headers := []; payload := NoBody |}.

Definition res_status (code : Z) (r : Response) : Response :=
  {| statusCode := code; headers := headers r; payload := payload r |}.

Definition res_json (b : Body) (r : Response) : Response :=
  {| statusCode := statusCode r; headers := headers r; payload := b |}.

Definition res_send (s : string) (r : Response) : Response :=
  {| statusCode := statusCode r; headers := headers r; payload := Text s |}.

Definition res_sendFile (p : list string) (r : Response) : Response :=
  {| statusCode := statusCode r; headers := headers r; payload := File p |}.

Definition res_redirect (loc : string) (r : Response) : Response :=
  {| statusCode := 302; headers := headers r; payload := Redirect loc |}.

Definition res_cookie (n v : string) (o : CookieOptions) (r : Response) : Response :=
  {| statusCode := statusCode r; headers := headers r ++ [SetCookie n v o];
     payload := payload r |}.

Definition res_clearCookie (n : string) (r : Response) : Response :=
  {| statusCode := statusCode r; headers := headers r ++ [ClearCookie n];
     payload := payload r |}.

(** What a middleware does with a request: call [next()] or respond. *)
Inductive Step :=
| Next
| Respond (r : Response).

Definition Middleware : Type := Env -> Request -> M Step.

(** ** Admin credentials *)

Record AdminUser := mkAdminUser { username : string; password : string }.

Definition ADMIN_USERS (penv : gmap string string) : list AdminUser :=
  [ {| username := env_or penv "ADMIN_USERNAME_1" "admin1";
       password := env_or penv "ADMIN_PASSWORD_1" "password1" |};
    {| username := env_or penv "ADMIN_USERNAME_2" "admin2";
       password := env_or penv "ADMIN_PASSWORD_2" "password2" |} ].

(** ** Middleware *)

Definition requireAuth : Middleware :=
  fun env req =>
    if strict_eq_string (prop (cookies req) "isLoggedIn") "true"
    then ret Next
    else ret (Respond (res_redirect "/login" res)).

Definition ensureDbConnection : Middleware :=
  fun env req =>
    try_catch
      (_ <- connectToDatabase env ;;
       ret Next)
      (fun error =>
         ret (Respond (res_json (Json_error "Database connection failed")
                         (res_status 500 res)))).

(** ** Route handlers *)

Definition get_login : Middleware :=
  fun env req =>
    if strict_eq_string (prop (cookies req) "isLoggedIn") "true"
    then ret (Respond (res_redirect "/home" res))
    else ret (Respond (res_sendFile ["pages"; "login"; "login.html"] res)).

Definition post_login : Middleware :=
  fun env req =>
    let username' := prop (body req) "username" in
    let password' := prop (body req) "password" in
    let validAdmin :=
      find (fun admin => strict_eq_string username' (username admin)
                         && strict_eq_string password' (password admin))
           (ADMIN_USERS (process_env env)) in
    match validAdmin with
    | Some _ =>
        ret (Respond
               (res_json Json_success
                  (res_cookie "isLoggedIn" "true"
                     {| httpOnly := true;
                        secure := bool_decide (process_env env !! "NODE_ENV" = Some "production");
                        maxAge := 24 * 60 * 60 * 1000;
                        sameSite := "lax" |}
                     res)))
    | None =>
        ret (Respond (res_json (Json_failure "Invalid credentials")
                        (res_status 401 res)))
    end.

Definition send_page (p : list string) : Middleware :=
  fun env req => ret (Respond (res_sendFile p res)).

Definition get_api_requests : Middleware :=
  fun env req =>
    try_catch
      (requests <- Appointment_find env pending sort_createdAt_desc None ;;
       ret (Respond (res_json (Json_docs requests) res)))
      (fun error =>
         ret (Respond (res_json (Json_error "Failed to fetch requests")
                         (res_status 500 res)))).

Definition post_accept (id : string) : Middleware :=
  fun env req =>
    try_catch
      (appointment <- Appointment_findByIdAndUpdate env id accepted ;;
       match appointment with
       | None =>
           ret (Respond (res_json (Json_error "Appointment not found")
                           (res_status 404 res)))
       | Some a => ret (Respond (res_json (Json_success_appointment a) res))
       end)
      (fun error =>
         ret (Respond (res_json (Json_error "Failed to accept appointment")
                         (res_status 500 res)))).

Definition post_reject (id : string) : Middleware :=
  fun env req =>
    try_catch
      (appointment <- Appointment_findByIdAndDelete env id ;;
       match appointment with
       | None =>
           ret (Respond (res_json (Json_error "Appointment not found")
                           (res_status 404 res)))
       | Some _ => ret (Respond (res_json Json_success res))
       end)
      (fun error =>
         ret (Respond (res_json (Json_error "Failed to reject appointment")
                         (res_status 500 res)))).

Definition get_api_appointments : Middleware :=
  fun env req =>
    try_catch
      (appointments <- Appointment_find env accepted sort_date_time_asc None ;;
       ret (Respond (res_json (Json_docs appointments) res)))
      (fun error =>
         ret (Respond (res_json (Json_error "Failed to fetch appointments")
                         (res_status 500 res)))).

Definition post_done (id : string) : Middleware :=
  fun env req =>
    try_catch
      (appointment <- Appointment_findByIdAndUpdate env id done ;;
       match appointment with
       | None =>
           ret (Respond (res_json (Json_error "Appointment not found")
                           (res_status 404 res)))
       | Some a => ret (Respond (res_json (Json_success_appointment a) res))
       end)
      (fun error =>
         ret (Respond (res_json (Json_error "Failed to mark appointment as done")
                         (res_status 500 res)))).

Definition get_api_recent_appointments : Middleware :=
  fun env req =>
    try_catch
      (appointments <- Appointment_find env done sort_createdAt_desc (Some 50%nat) ;;
       ret (Respond (res_json (Json_docs appointments) res)))
      (fun error =>
         ret (Respond (res_json (Json_error "Failed to fetch recent appointments")
                         (res_status 500 res)))).

Definition post_logout : Middleware :=
  fun env req => ret (Respond (res_json Json_success (res_clearCookie "isLoggedIn" res))).

Definition get_root : Middleware :=
  fun env req => ret (Respond (res_redirect "/login" res)).

(** The final [app.use] handler. *)
Definition page_not_found : Response := res_send "Page not found" (res_status 404 res).

(** ** Routing *)

(** The middleware list registered for each route. *)
Definition stack (r : Route) : list Middleware :=
  match r with
  | GET_login => [get_login]
  | POST_login => [ensureDbConnection; post_login]
  | GET_home => [requireAuth; send_page ["pages"; "home"; "home.html"]]
  | GET_see_requests =>
      [requireAuth; send_page ["pages"; "see-requests"; "see-requests.html"]]
  | GET_see_appointments =>
      [requireAuth; send_page ["pages"; "see-appointments"; "see-appointments.html"]]
  | GET_see_recent_appointments =>
      [requireAuth; send_page ["pages"; "SeeRecentAppointMent"; "index.html"]]
  | GET_api_requests => [requireAuth; ensureDbConnection; get_api_requests]
  | POST_api_requests_accept id => [requireAuth; ensureDbConnection; post_accept id]
  | POST_api_requests_reject id => [requireAuth; ensureDbConnection; post_reject id]
  | GET_api_appointments => [requireAuth; ensureDbConnection; get_api_appointments]
  | POST_api_appointments_done id => [requireAuth; ensureDbConnection; post_done id]
  | GET_api_recent_appointments =>
      [requireAuth; ensureDbConnection; get_api_recent_appointments]
  | POST_logout => [post_logout]
  | GET_root => [get_root]
  | Unmatched => []
  end.

Fixpoint run (ms : list Middleware) (env : Env) (req : Request) : M Step :=
  match ms with
  | [] => ret Next
  | m :: ms' =>
      s <- m env req ;;
      match s with
      | Next => run ms' env req
      | Respond r => ret (Respond r)
      end
  end.

(** A request no route handler answered reaches the final handler. *)
Definition finish (m : M Step) : M Response :=
  s <- m ;;
  match s with
  | Respond r => ret r
  | Next => ret page_not_found
  end.

(** One request through the application: the response sent, or an
    exception no handler caught. *)
Definition app (env : Env) (req : Request) : M Response :=
  finish (run (stack (route req)) env req).

(** A sequence of requests, each with the environment it meets. *)
Fixpoint serve (reqs : list (Env * Request)) (w : World) : list (Outcome Response) * World :=
  match reqs with
  | [] => ([], w)
  | (env, req) :: rest =>
      let '(o, w') := app env req w in
      let '(os, w'') := serve rest w' in
      (o :: os, w'')
  end.

(** ** Vocabulary of the statements *)

(** The session flag of a request. *)
Definition isLoggedIn (req : Request) : JsValue := prop (cookies req) "isLoggedIn".

Definition login_redirect : Response :=
  {| statusCode := 302; headers := []; payload := Redirect "/login" |}.

Definition json_error (code : Z) (msg : string) : Response :=
  {| statusCode := code; headers := []; payload := Json_error msg |}.

Definition json_ok (b : Body) : Response :=
  {| statusCode := 200; headers := []; payload := b |}.

(** Page routes and API routes behind [requireAuth]. *)
Definition page_route (r : Route) : bool :=
  match r with
  | GET_home | GET_see_requests | GET_see_appointments
  | GET_see_recent_appointments => true
  | _ => false
  end.

Definition api_route (r : Route) : bool :=
  match r with
  | GET_api_requests | POST_api_requests_accept _ | POST_api_requests_reject _
  | GET_api_appointments | POST_api_appointments_done _
  | GET_api_recent_appointments => true
  | _ => false
  end.

(** The handler an API route ends in. *)
Definition api_handler (r : Route) : Middleware :=
  match r with
  | GET_api_requests => get_api_requests
  | POST_api_requests_accept id => post_accept id
  | POST_api_requests_reject id => post_reject id
  | GET_api_appointments => get_api_appointments
  | POST_api_appointments_done id => post_done id
  | GET_api_recent_appointments => get_api_recent_appointments
  | _ => fun _ _ => ret Next
  end.

(** [connectToDatabase] resolves: the cached connection is ready, or
    [mongoose.connect] succeeds. *)
Definition db_available (env : Env) (w : World) : bool :=
  match cachedDb w, readyState env =? 1 with
  | Some _, true => true
  | _, _ => connectSucceeds env
  end.

(** The process state once a connection is cached. *)
Definition connected (w : World) : World :=
  {| cachedDb := Some MongooseConnection; appointments := appointments w |}.

(** The login answers. *)
Definition login_success (penv : gmap string string) : Response :=
  {| statusCode := 200;
     headers := [SetCookie "isLoggedIn" "true"
                   {| httpOnly := true;
                      secure := bool_decide (penv !! "NODE_ENV" = Some "production");
                      maxAge := 86400000;
                      sameSite := "lax" |}];
     payload := Json_success |}.

Definition login_unauthorized : Response :=
  {| statusCode := 401; headers := []; payload := Json_failure "Invalid credentials" |}.

(** The submitted pair is one of the configured pairs: both fields are
    strings, equal character for character to that pair's fields. *)
Definition credentials_match (penv : gmap string string) (u p : JsValue) : Prop :=
  exists admin, admin ∈ ADMIN_USERS penv
                /\ u = JsString (username admin) /\ p = JsString (password admin).

Definition with_appointments (w : World) (coll : gmap string Appointment) : World :=
  {| cachedDb := cachedDb w; appointments := coll |}.

Definition not_found : Response := json_error 404 "Appointment not found".

(** The list a list route queries for. *)
Definition listing (s : Status) (spec : SortSpec) (lim : option nat)
    (coll : gmap string Appointment) : list Doc :=
  apply_limit lim (sort_docs spec (matching s coll)).

(** The record an update or delete route names. *)
Definition target (r : Route) : option string :=
  match r with
  | POST_api_requests_accept id | POST_api_requests_reject id
  | POST_api_appointments_done id => Some id
  | _ => None
  end.

(** The ObjectId that route names, when its id can be cast. *)
Definition target_id (r : Route) : option ObjectId :=
  match target r with
  | Some id => castObjectId id
  | None => None
  end.

(** The fixed message of each API route's [catch] branch. *)
Definition failure_message (r : Route) : string :=
  match r with
  | GET_api_requests => "Failed to fetch requests"
  | POST_api_requests_accept _ => "Failed to accept appointment"
  | POST_api_requests_reject _ => "Failed to reject appointment"
  | GET_api_appointments => "Failed to fetch appointments"
  | POST_api_appointments_done _ => "Failed to mark appointment as done"
  | GET_api_recent_appointments => "Failed to fetch recent appointments"
  | _ => ""
  end.

(** Bodies that carry a result. *)
Definition success_payload (b : Body) : Prop :=
  match b with
  | Json_docs _ | Json_success | Json_success_appointment _ => True
  | _ => False
  end.

(** ** Vocabulary of the further properties *)

Definition home_redirect : Response :=
  {| statusCode := 302; headers := []; payload := Redirect "/home" |}.

Definition login_page : Response := json_ok (File ["pages"; "login"; "login.html"]).

Definition logout_response : Response :=
  {| statusCode := 200; headers := [ClearCookie "isLoggedIn"]; payload := Json_success |}.

(** The file a page route sends. *)
Definition page_file (r : Route) : list string :=
  match r with
  | GET_home => ["pages"; "home"; "home.html"]
  | GET_see_requests => ["pages"; "see-requests"; "see-requests.html"]
  | GET_see_appointments => ["pages"; "see-appointments"; "see-appointments.html"]
  | GET_see_recent_appointments => ["pages"; "SeeRecentAppointMent"; "index.html"]
  | _ => []
  end.

(** Bodies that disclose appointment records. *)
Definition carries_appointments (b : Body) : Prop :=
  match b with
  | Json_docs _ | Json_success_appointment _ => True
  | _ => False
  end.

(** The session flag is not set on a request. *)
Definition anonymous (x : Env * Request) : Prop := isLoggedIn x.2 <> JsString "true".

(** The credential test of [POST /login]. *)
Definition validAdmin (penv : gmap string string) (u p : JsValue) : option AdminUser :=
  find (fun admin => strict_eq_string u (username admin)
                     && strict_eq_string p (password admin))
       (ADMIN_USERS penv).

(** What a request that reaches the store and is answered does to the
    collection. *)
Definition store_effect (r : Route) (coll : gmap string Appointment)
    : gmap string Appointment :=
  match r, target_id r with
  | POST_api_requests_accept _, Some oid => alter (set_status accepted) oid coll
  | POST_api_appointments_done _, Some oid => alter (set_status done) oid coll
  | POST_api_requests_reject _, Some oid => delete oid coll
  | _, _ => coll
  end.

(** The session flag is set, a connection is had and the query is answered. *)
Definition takes_effect (env : Env) (req : Request) (w : World) : bool :=
  strict_eq_string (isLoggedIn req) "true" && db_available env w && queryAnswered env.

(** ** Server start-up *)

(** The process either listens or has exited with a code. *)
Inductive Boot :=
| Listening (w : World)
| Exited (code : Z).

(** [connectToDatabase().then(listen).catch(exit 1)], from a freshly loaded
    module ([cachedDb] is [null]). *)
Definition main (env : Env) (coll : gmap string Appointment) : Boot :=
  match connectToDatabase env {| cachedDb := None; appointments := coll |} with
  | (Resolved _, w) => Listening w
  | (Rejected _, _) => Exited 1
  end.

(** ** Sample data *)

Definition ann : Appointment :=
  {| name := "Ann"; email := "ann@example.com"; phone := "555-0101";
     service := "Haircut"; date := 1700006400000; time := "10:00";
     status := pending; createdAt := 1699900000000 |}.

Definition bob : Appointment :=
  {| name := "Bob"; email := "bob@example.com"; phone := "555-0102";
     service := "Shave"; date := 1700006400000; time := "9:30";
     status := accepted; createdAt := 1699800000000 |}.

Definition cyd : Appointment :=
  {| name := "Cyd"; email := "cyd@example.com"; phone := "555-0103";
     service := "Colour"; date := 1699920000000; time := "14:15";
     status := done; createdAt := 1699700000000 |}.

Definition id_ann : string := "655f1c2e9b1e8a0012a4c001".
Definition id_bob : string := "655f1c2e9b1e8a0012a4c002".
Definition id_cyd : string := "655f1c2e9b1e8a0012a4c003".
Definition id_nobody : string := "655f1c2e9b1e8a0012a4cfff".

Definition sample_world : World :=
  {| cachedDb := None;
     appointments := {[ id_ann := ann; id_bob := bob; id_cyd := cyd ]} |}.

(** A store that accepts connections and answers queries; one that is
    unreachable. *)
Definition store_up : Env :=
  {| process_env := ∅; readyState := 0; connectSucceeds := true; queryAnswered := true |}.

Definition store_down : Env :=
  {| process_env := ∅; readyState := 0; connectSucceeds := false; queryAnswered := false |}.

Definition with_session (r : Route) : Request :=
  {| route := r; cookies := {[ "isLoggedIn" := JsString "true" ]}; body := ∅ |}.

Definition without_session (r : Route) : Request :=
  {| route := r; cookies := ∅; body := ∅ |}.

Definition accept_ann : Env * Request :=
  (store_up, with_session (POST_api_requests_accept id_ann)).

Definition complete_ann : Env * Request :=
  (store_up, with_session (POST_api_appointments_done id_ann)).

Definition login_as (u p : string) : Request :=
  {| route := POST_login; cookies := ∅;
     body := {[ "username" := JsString u; "password" := JsString p ]} |}.

Global Instance Appointment_eq_dec : EqDecision Appointment.
Proof. solve_decision. Defined.

(** Fifty-one done appointments, the [n]-th created at time [n]. *)
Definition crowd_id (n : nat) : string := String (Stdlib.Strings.Ascii.ascii_of_nat (65 + n)) "".

Definition crowd_member (n : nat) : Appointment :=
  {| name := "Dee"; email := "dee@example.com"; phone := "555-0104";
     service := "Haircut"; date := 1699920000000; time := "11:00";
     status := done; createdAt := Z.of_nat n |}.

Definition crowd_world : World :=
  {| cachedDb := None;
     appointments := list_to_map ((fun n => (crowd_id n, crowd_member n)) <$> seq 0 51) |}.

Definition sample_accepted : World :=
  with_appointments (connected sample_world)
    (<[id_ann := set_status accepted ann]> (appointments sample_world)).

Definition sample_without_cyd : World :=
  with_appointments (connected sample_world) (delete id_cyd (appointments sample_world)).

(** Another spelling of Ann's id, and a string that is no ObjectId. *)
Definition id_ann_upper : string := "655F1C2E9B1E8A0012A4C001".
Definition id_abc : string := "abc".

(** ** Evaluation lemmas *)

Lemma strict_eq_string_true v s : strict_eq_string v s = true <-> v = JsString s.
Proof.
  destruct v; simpl; try (split; [discriminate | congruence]).
  rewrite bool_decide_eq_true. split; congruence.
Qed.

Lemma strict_eq_string_false v s : strict_eq_string v s = false <-> v <> JsString s.
Proof.
  rewrite <- strict_eq_string_true. destruct (strict_eq_string v s); split; congruence.
Qed.

Lemma requireAuth_next env req w :
  isLoggedIn req = JsString "true" -> requireAuth env req w = (Resolved Next, w).
Proof.
  intros H. unfold requireAuth. fold (isLoggedIn req).
  apply strict_eq_string_true in H. rewrite H. reflexivity.
Qed.

Lemma requireAuth_redirect env req w :
  isLoggedIn req <> JsString "true" ->
  requireAuth env req w = (Resolved (Respond login_redirect), w).
Proof.
  intros H. unfold requireAuth. fold (isLoggedIn req).
  apply strict_eq_string_false in H. rewrite H. reflexivity.
Qed.

Lemma connectToDatabase_available env w :
  db_available env w = true ->
  connectToDatabase env w = (Resolved MongooseConnection, connected w).
Proof.
  unfold db_available, connectToDatabase, connected. destruct w as [c apps]; simpl.
  destruct c as [[]|], (readyState env =? 1); simpl; intros H;
    try reflexivity;
    unfold try_catch, bind, mongoose_connect; rewrite H; reflexivity.
Qed.

Lemma connectToDatabase_unavailable env w :
  db_available env w = false ->
  connectToDatabase env w = (Rejected ConnectError, w).
Proof.
  unfold db_available, connectToDatabase. destruct w as [c apps]; simpl.
  destruct c as [[]|], (readyState env =? 1); simpl; intros H;
    try discriminate;
    unfold try_catch, bind, mongoose_connect; rewrite H; reflexivity.
Qed.

Lemma ensureDbConnection_next env req w :
  db_available env w = true ->
  ensureDbConnection env req w = (Resolved Next, connected w).
Proof.
  intros H. unfold ensureDbConnection, try_catch, bind.
  rewrite (connectToDatabase_available _ _ H). reflexivity.
Qed.

Lemma ensureDbConnection_fail env req w :
  db_available env w = false ->
  ensureDbConnection env req w =
  (Resolved (Respond (json_error 500 "Database connection failed")), w).
Proof.
  intros H. unfold ensureDbConnection, try_catch, bind.
  rewrite (connectToDatabase_unavailable _ _ H). reflexivity.
Qed.

Lemma stack_api r :
  api_route r = true -> stack r = [requireAuth; ensureDbConnection; api_handler r].
Proof. destruct r; simpl; intros H; try discriminate; reflexivity. Qed.

Lemma stack_page r :
  page_route r = true -> exists p, stack r = [requireAuth; send_page p].
Proof. destruct r; simpl; intros H; try discriminate; eexists; reflexivity. Qed.

Lemma app_gate_closed env req w rest :
  stack (route req) = requireAuth :: rest ->
  isLoggedIn req <> JsString "true" ->
  app env req w = (Resolved login_redirect, w).
Proof.
  intros Hs H. unfold app, finish. rewrite Hs. simpl. unfold bind.
  rewrite (requireAuth_redirect _ _ _ H). reflexivity.
Qed.

Lemma app_gate_open env req w rest :
  stack (route req) = requireAuth :: rest ->
  isLoggedIn req = JsString "true" ->
  app env req w = finish (run rest env req) w.
Proof.
  intros Hs H. unfold app, finish. rewrite Hs. simpl. unfold bind.
  rewrite (requireAuth_next _ _ _ H). reflexivity.
Qed.

Lemma app_api_db_down env req w :
  api_route (route req) = true ->
  isLoggedIn req = JsString "true" ->
  db_available env w = false ->
  app env req w = (Resolved (json_error 500 "Database connection failed"), w).
Proof.
  intros Ha Hl Hd. rewrite (app_gate_open _ _ _ _ (stack_api _ Ha) Hl).
  unfold finish. simpl. unfold bind.
  rewrite (ensureDbConnection_fail _ _ _ Hd). reflexivity.
Qed.

Lemma app_api_db_up env req w :
  api_route (route req) = true ->
  isLoggedIn req = JsString "true" ->
  db_available env w = true ->
  app env req w = finish (api_handler (route req) env req) (connected w).
Proof.
  intros Ha Hl Hd. rewrite (app_gate_open _ _ _ _ (stack_api _ Ha) Hl).
  unfold finish. simpl. unfold bind.
  rewrite (ensureDbConnection_next _ _ _ Hd).
  destruct (api_handler (route req) env req (connected w)) as [[[|r]|e] w']; reflexivity.
Qed.

(** ** Session gate *)

(** C2. On a protected route the session gate lets the request through,
    leaving the process state as it was, exactly when the cookie
    [isLoggedIn] is the string "true"; for any other value, or no cookie,
    it answers with a redirect to the login page, and the API routes behind
    the gate get that same redirect. *)
Theorem requireAuth_gate (env : Env) (req : Request) (w : World) :
  (requireAuth env req w = (Resolved Next, w) <-> isLoggedIn req = JsString "true")
  /\ (isLoggedIn req <> JsString "true" ->
      requireAuth env req w = (Resolved (Respond login_redirect), w))
  /\ (page_route (route req) || api_route (route req) = true ->
      exists rest,
        stack (route req) = requireAuth :: rest
        /\ (isLoggedIn req = JsString "true" ->
            app env req w = finish (run rest env req) w)
        /\ (isLoggedIn req <> JsString "true" ->
            app env req w = (Resolved login_redirect, w))).
Proof.
  split; [| split].
  - split.
    + intros H. destruct (decide (isLoggedIn req = JsString "true")) as [|Hne]; [assumption|].
      rewrite (requireAuth_redirect _ _ _ Hne) in H. discriminate.
    + apply requireAuth_next.
  - apply requireAuth_redirect.
  - intros Hr. apply orb_true_iff in Hr as [Hp | Ha].
    + destruct (stack_page _ Hp) as [p Hs]. eexists. split; [exact Hs|].
      split; intros H; [eapply app_gate_open | eapply app_gate_closed]; eauto.
    + pose proof (stack_api _ Ha) as Hs. eexists. split; [exact Hs|].
      split; intros H; [eapply app_gate_open | eapply app_gate_closed]; eauto.
Qed.

(** C10. A GET of the login page carrying [isLoggedIn] = "true" is answered
    with a redirect to the home page; the login page itself is served
    exactly when the cookie is absent or holds anything else. *)
Theorem get_login_session_redirect (env : Env) (req : Request) (w : World) :
  route req = GET_login ->
  exists r,
    app env req w = (Resolved r, w)
    /\ (isLoggedIn req = JsString "true" ->
        r = {| statusCode := 302; headers := []; payload := Redirect "/home" |})
    /\ (isLoggedIn req <> JsString "true" ->
        r = json_ok (File ["pages"; "login"; "login.html"]))
    /\ (payload r = File ["pages"; "login"; "login.html"] <->
        isLoggedIn req <> JsString "true").
Proof.
  intros Hr. unfold app, finish. rewrite Hr. simpl.
  unfold bind, get_login. fold (isLoggedIn req).
  destruct (strict_eq_string (isLoggedIn req) "true") eqn:E.
  - apply strict_eq_string_true in E. eexists. split; [reflexivity|].
    repeat split; simpl; intros; congruence.
  - apply strict_eq_string_false in E. eexists. split; [reflexivity|].
    repeat split; simpl; intros; congruence.
Qed.

(** ** Login *)

Lemma find_admin_Some penv u p a :
  find (fun admin => strict_eq_string u (username admin)
                     && strict_eq_string p (password admin)) (ADMIN_USERS penv) = Some a ->
  credentials_match penv u p.
Proof.
  intros H. apply find_some in H as [Hin Hb].
  apply andb_true_iff in Hb as [Hu Hp].
  exists a. rewrite list_elem_of_In.
  split; [assumption|]. split; apply strict_eq_string_true; assumption.
Qed.

Lemma find_admin_None penv u p :
  find (fun admin => strict_eq_string u (username admin)
                     && strict_eq_string p (password admin)) (ADMIN_USERS penv) = None ->
  ~ credentials_match penv u p.
Proof.
  intros H (a & Hin & Hu & Hp). rewrite list_elem_of_In in Hin.
  pose proof (find_none _ _ H a Hin) as Hb. simpl in Hb.
  apply strict_eq_string_true in Hu, Hp. rewrite Hu, Hp in Hb. discriminate.
Qed.

(** C3, as the code has it. A login request first passes the database
    gate: when no connection can be had the answer is 500 "Database
    connection failed" and no cookie. Past the gate, a pair that matches a
    configured admin pair on both fields gets the session cookie
    isLoggedIn=true (http-only, secure exactly in production, 24 hours,
    lax same-site) and a success body; any other pair gets 401 with
    "Invalid credentials" and no cookie. *)
Theorem post_login_outcomes (env : Env) (req : Request) (w : World) :
  route req = POST_login ->
  let u := prop (body req) "username" in
  let p := prop (body req) "password" in
  (db_available env w = false ->
   app env req w = (Resolved (json_error 500 "Database connection failed"), w))
  /\ (db_available env w = true -> credentials_match (process_env env) u p ->
      app env req w = (Resolved (login_success (process_env env)), connected w))
  /\ (db_available env w = true -> ~ credentials_match (process_env env) u p ->
      app env req w = (Resolved login_unauthorized, connected w)).
Proof.
  intros Hr u p. unfold app, finish. rewrite Hr. simpl. unfold bind.
  split; [| split].
  - intros Hd. rewrite (ensureDbConnection_fail _ _ _ Hd). reflexivity.
  - intros Hd Hm. rewrite (ensureDbConnection_next _ _ _ Hd).
    unfold post_login. fold u p.
    destruct (find _ (ADMIN_USERS (process_env env))) eqn:E.
    + reflexivity.
    + apply find_admin_None in E. contradiction.
  - intros Hd Hm. rewrite (ensureDbConnection_next _ _ _ Hd).
    unfold post_login. fold u p.
    destruct (find _ (ADMIN_USERS (process_env env))) eqn:E.
    + apply find_admin_Some in E. contradiction.
    + reflexivity.
Qed.

(** ** Lifecycle handlers past the gates *)

Lemma post_accept_eval env req w id :
  finish (post_accept id env req) w =
  if queryAnswered env then
    match castObjectId id with
    | Some oid =>
        match appointments w !! oid with
        | Some a =>
            (Resolved (json_ok (Json_success_appointment (oid, set_status accepted a))),
             with_appointments w (<[oid := set_status accepted a]> (appointments w)))
        | None => (Resolved not_found, w)
        end
    | None => (Resolved (json_error 500 "Failed to accept appointment"), w)
    end
  else (Resolved (json_error 500 "Failed to accept appointment"), w).
Proof.
  unfold finish, post_accept, try_catch, bind, Appointment_findByIdAndUpdate.
  destruct (queryAnswered env), (castObjectId id) as [oid|]; try reflexivity.
  destruct (appointments w !! oid); reflexivity.
Qed.

Lemma post_done_eval env req w id :
  finish (post_done id env req) w =
  if queryAnswered env then
    match castObjectId id with
    | Some oid =>
        match appointments w !! oid with
        | Some a =>
            (Resolved (json_ok (Json_success_appointment (oid, set_status done a))),
             with_appointments w (<[oid := set_status done a]> (appointments w)))
        | None => (Resolved not_found, w)
        end
    | None => (Resolved (json_error 500 "Failed to mark appointment as done"), w)
    end
  else (Resolved (json_error 500 "Failed to mark appointment as done"), w).
Proof.
  unfold finish, post_done, try_catch, bind, Appointment_findByIdAndUpdate.
  destruct (queryAnswered env), (castObjectId id) as [oid|]; try reflexivity.
  destruct (appointments w !! oid); reflexivity.
Qed.

Lemma post_reject_eval env req w id :
  finish (post_reject id env req) w =
  if queryAnswered env then
    match castObjectId id with
    | Some oid =>
        match appointments w !! oid with
        | Some a =>
            (Resolved (json_ok Json_success),
             with_appointments w (delete oid (appointments w)))
        | None => (Resolved not_found, w)
        end
    | None => (Resolved (json_error 500 "Failed to reject appointment"), w)
    end
  else (Resolved (json_error 500 "Failed to reject appointment"), w).
Proof.
  unfold finish, post_reject, try_catch, bind, Appointment_findByIdAndDelete.
  destruct (queryAnswered env), (castObjectId id) as [oid|]; try reflexivity.
  destruct (appointments w !! oid); reflexivity.
Qed.

Lemma get_api_requests_eval env req w :
  finish (get_api_requests env req) w =
  if queryAnswered env
  then (Resolved (json_ok (Json_docs (listing pending sort_createdAt_desc None (appointments w)))), w)
  else (Resolved (json_error 500 "Failed to fetch requests"), w).
Proof.
  unfold finish, get_api_requests, try_catch, bind, Appointment_find.
  destruct (queryAnswered env); reflexivity.
Qed.

Lemma get_api_appointments_eval env req w :
  finish (get_api_appointments env req) w =
  if queryAnswered env
  then (Resolved (json_ok (Json_docs (listing accepted sort_date_time_asc None (appointments w)))), w)
  else (Resolved (json_error 500 "Failed to fetch appointments"), w).
Proof.
  unfold finish, get_api_appointments, try_catch, bind, Appointment_find.
  destruct (queryAnswered env); reflexivity.
Qed.

Lemma get_api_recent_appointments_eval env req w :
  finish (get_api_recent_appointments env req) w =
  if queryAnswered env
  then (Resolved (json_ok (Json_docs
          (listing done sort_createdAt_desc (Some 50%nat) (appointments w)))), w)
  else (Resolved (json_error 500 "Failed to fetch recent appointments"), w).
Proof.
  unfold finish, get_api_recent_appointments, try_catch, bind, Appointment_find.
  destruct (queryAnswered env); reflexivity.
Qed.

(** An API request either stops at a gate, leaving the process state
    alone, or reaches its handler with a connection cached. *)
Lemma app_api_cases env req w :
  api_route (route req) = true ->
  (app env req w = (Resolved login_redirect, w) /\ isLoggedIn req <> JsString "true")
  \/ (app env req w = (Resolved (json_error 500 "Database connection failed"), w)
      /\ isLoggedIn req = JsString "true" /\ db_available env w = false)
  \/ (app env req w = finish (api_handler (route req) env req) (connected w)
      /\ isLoggedIn req = JsString "true" /\ db_available env w = true).
Proof.
  intros Ha. destruct (decide (isLoggedIn req = JsString "true")) as [Hl | Hl].
  - destruct (db_available env w) eqn:Hd.
    + right. right. auto using app_api_db_up.
    + right. left. auto using app_api_db_down.
  - left. split; [|assumption]. eapply app_gate_closed; eauto using stack_api.
Qed.

(** Routes other than accept, done and reject leave the collection alone. *)
Lemma app_other_routes env req w :
  (forall id, route req <> POST_api_requests_accept id) ->
  (forall id, route req <> POST_api_appointments_done id) ->
  (forall id, route req <> POST_api_requests_reject id) ->
  appointments (app env req w).2 = appointments w.
Proof.
  intros H1 H2 H3. destruct (api_route (route req)) eqn:Ha.
  - destruct (app_api_cases env req w Ha) as [[-> _] | [[-> _] | [-> _]]];
      try reflexivity.
    destruct (route req) eqn:Hr; simpl in Ha; try discriminate;
      try (exfalso; eapply H1; reflexivity);
      try (exfalso; eapply H2; reflexivity);
      try (exfalso; eapply H3; reflexivity); simpl.
    + rewrite get_api_requests_eval. destruct (queryAnswered env); reflexivity.
    + rewrite get_api_appointments_eval. destruct (queryAnswered env); reflexivity.
    + rewrite get_api_recent_appointments_eval. destruct (queryAnswered env); reflexivity.
  - destruct (page_route (route req)) eqn:Hp.
    + destruct (stack_page _ Hp) as [p Hs].
      destruct (decide (isLoggedIn req = JsString "true")) as [Hl | Hl].
      * rewrite (app_gate_open _ _ _ _ Hs Hl). reflexivity.
      * rewrite (app_gate_closed _ _ _ _ Hs Hl). reflexivity.
    + unfold app. destruct (route req) eqn:Hr; simpl in Ha, Hp; try discriminate;
        simpl; try reflexivity.
      * unfold finish, bind, get_login.
        destruct (strict_eq_string _ _); reflexivity.
      * unfold finish, bind. destruct (db_available env w) eqn:Hd.
        -- rewrite (ensureDbConnection_next _ _ _ Hd). unfold post_login.
           destruct (find _ _); reflexivity.
        -- rewrite (ensureDbConnection_fail _ _ _ Hd). reflexivity.
Qed.

(** What one request does to the collection. *)
Lemma app_store_cases env req w :
  appointments (app env req w).2 = appointments w
  \/ (exists id oid a, route req = POST_api_requests_accept id
        /\ castObjectId id = Some oid
        /\ appointments w !! oid = Some a
        /\ appointments (app env req w).2 = <[oid := set_status accepted a]> (appointments w))
  \/ (exists id oid a, route req = POST_api_appointments_done id
        /\ castObjectId id = Some oid
        /\ appointments w !! oid = Some a
        /\ appointments (app env req w).2 = <[oid := set_status done a]> (appointments w))
  \/ (exists id oid a, route req = POST_api_requests_reject id
        /\ castObjectId id = Some oid
        /\ appointments w !! oid = Some a
        /\ appointments (app env req w).2 = delete oid (appointments w)).
Proof.
  destruct (route req) eqn:Hr;
    try (left; apply app_other_routes; intros ?; rewrite Hr; discriminate).
  - assert (Ha : api_route (route req) = true) by (rewrite Hr; reflexivity).
    destruct (app_api_cases env req w Ha) as [[-> _] | [[-> _] | [-> _]]];
      [left; reflexivity .. |].
    rewrite Hr. simpl api_handler. rewrite post_accept_eval. simpl appointments.
    destruct (queryAnswered env); [|left; reflexivity].
    destruct (castObjectId id) as [oid|] eqn:Ec; [|left; reflexivity].
    destruct (appointments w !! oid) as [a|] eqn:E; [|left; reflexivity].
    right. left. exists id, oid, a. auto.
  - assert (Ha : api_route (route req) = true) by (rewrite Hr; reflexivity).
    destruct (app_api_cases env req w Ha) as [[-> _] | [[-> _] | [-> _]]];
      [left; reflexivity .. |].
    rewrite Hr. simpl api_handler. rewrite post_reject_eval. simpl appointments.
    destruct (queryAnswered env); [|left; reflexivity].
    destruct (castObjectId id) as [oid|] eqn:Ec; [|left; reflexivity].
    destruct (appointments w !! oid) as [a|] eqn:E; [|left; reflexivity].
    right. right. right. exists id, oid, a. auto.
  - assert (Ha : api_route (route req) = true) by (rewrite Hr; reflexivity).
    destruct (app_api_cases env req w Ha) as [[-> _] | [[-> _] | [-> _]]];
      [left; reflexivity .. |].
    rewrite Hr. simpl api_handler. rewrite post_done_eval. simpl appointments.
    destruct (queryAnswered env); [|left; reflexivity].
    destruct (castObjectId id) as [oid|] eqn:Ec; [|left; reflexivity].
    destruct (appointments w !! oid) as [a|] eqn:E; [|left; reflexivity].
    right. right. left. exists id, oid, a. auto.
Qed.

(** What one request does to the record with a given [_id]. *)
Lemma app_record_step env req w oid :
  match appointments w !! oid with
  | None => appointments (app env req w).2 !! oid = None
  | Some a =>
      appointments (app env req w).2 !! oid = Some a
      \/ (exists id, route req = POST_api_requests_accept id
          /\ castObjectId id = Some oid
          /\ appointments (app env req w).2 !! oid = Some (set_status accepted a))
      \/ (exists id, route req = POST_api_appointments_done id
          /\ castObjectId id = Some oid
          /\ appointments (app env req w).2 !! oid = Some (set_status done a))
      \/ (exists id, route req = POST_api_requests_reject id
          /\ castObjectId id = Some oid
          /\ appointments (app env req w).2 !! oid = None)
  end.
Proof.
  destruct (app_store_cases env req w)
    as [-> | [(id & i & b & Hr & Hc & Hb & ->)
           | [(id & i & b & Hr & Hc & Hb & ->) | (id & i & b & Hr & Hc & Hb & ->)]]].
  - destruct (appointments w !! oid); auto.
  - destruct (decide (i = oid)) as [-> | Hne].
    + rewrite Hb, lookup_insert_eq. eauto 8.
    + rewrite lookup_insert_ne by assumption. destruct (appointments w !! oid); auto.
  - destruct (decide (i = oid)) as [-> | Hne].
    + rewrite Hb, lookup_insert_eq. eauto 8.
    + rewrite lookup_insert_ne by assumption. destruct (appointments w !! oid); auto.
  - destruct (decide (i = oid)) as [-> | Hne].
    + rewrite Hb, lookup_delete_eq. eauto 8.
    + rewrite lookup_delete_ne by assumption. destruct (appointments w !! oid); auto.
Qed.

(** ** List queries *)

Global Instance createdAt_desc_trans : Transitive createdAt_desc.
Proof. unfold createdAt_desc. intros a b c ? ?. lia. Qed.

Global Instance createdAt_desc_total : Total createdAt_desc.
Proof. unfold createdAt_desc. intros a b. lia. Qed.

Global Instance date_time_asc_trans : Transitive date_time_asc.
Proof.
  unfold date_time_asc. intros a b c [Hab | [Hab Tab]] [Hbc | [Hbc Tbc]];
    try (left; lia).
  right. split; [lia|]. etrans; eauto.
Qed.

Global Instance date_time_asc_total : Total date_time_asc.
Proof.
  unfold date_time_asc. intros a b.
  destruct (Z.lt_trichotomy (date a.2) (date b.2)) as [H | [H | H]];
    [left; left; assumption | | right; left; assumption].
  destruct (total String.le (time a.2) (time b.2)); [left | right]; right; auto.
Qed.

Lemma sort_docs_Permutation spec l : sort_docs spec l ≡ₚ l.
Proof. destruct spec; simpl; apply merge_sort_Permutation. Qed.

Lemma elem_of_matching s coll d :
  d ∈ matching s coll <-> coll !! d.1 = Some d.2 /\ status d.2 = s.
Proof.
  unfold matching. rewrite list_elem_of_filter. unfold has_status.
  destruct d as [i a]. rewrite elem_of_map_to_list. simpl.
  split; intros [? ?]; split; assumption.
Qed.

Lemma NoDup_matching s coll : NoDup (matching s coll).
Proof. unfold matching. apply NoDup_filter, NoDup_map_to_list. Qed.

(** Every listed document is a stored record of the queried status. *)
Lemma elem_of_listing s spec lim coll d :
  d ∈ listing s spec lim coll -> coll !! d.1 = Some d.2 /\ status d.2 = s.
Proof.
  unfold listing. intros H. apply elem_of_matching.
  rewrite <- (sort_docs_Permutation spec).
  destruct lim as [n|]; simpl in H; [|assumption].
  eapply subseteq_take; eassumption.
Qed.

(** Without a limit the listing holds every such record, once. *)
Lemma listing_complete s spec coll :
  NoDup (listing s spec None coll)
  /\ forall d, d ∈ listing s spec None coll <-> coll !! d.1 = Some d.2 /\ status d.2 = s.
Proof.
  unfold listing. simpl. split.
  - rewrite sort_docs_Permutation. apply NoDup_matching.
  - intros d. rewrite sort_docs_Permutation. apply elem_of_matching.
Qed.

(** C7, as the code has it. With the session flag set and the store
    answering, each list route returns 200 with the stored records of its
    status, each once, in its order: pending requests by [createdAt],
    newest first; accepted appointments ascending by [date] and, on one
    date, by [time] compared as text, character by character, not as a
    time of day; done appointments by [createdAt], newest first, cut to
    the first 50 of that ordering. *)
Theorem list_routes_select_and_order (env : Env) (req : Request) (w : World) :
  isLoggedIn req = JsString "true" ->
  db_available env w = true ->
  queryAnswered env = true ->
  (route req = GET_api_requests ->
   exists l,
     app env req w = (Resolved (json_ok (Json_docs l)), connected w)
     /\ NoDup l
     /\ (forall d, d ∈ l <-> appointments w !! d.1 = Some d.2 /\ status d.2 = pending)
     /\ StronglySorted createdAt_desc l)
  /\ (route req = GET_api_appointments ->
      exists l,
        app env req w = (Resolved (json_ok (Json_docs l)), connected w)
        /\ NoDup l
        /\ (forall d, d ∈ l <-> appointments w !! d.1 = Some d.2 /\ status d.2 = accepted)
        /\ StronglySorted date_time_asc l)
  /\ (route req = GET_api_recent_appointments ->
      exists l all,
        app env req w = (Resolved (json_ok (Json_docs l)), connected w)
        /\ l = take 50 all
        /\ (length l <= 50)%nat
        /\ NoDup all
        /\ (forall d, d ∈ all <-> appointments w !! d.1 = Some d.2 /\ status d.2 = done)
        /\ StronglySorted createdAt_desc all).
Proof.
  intros Hl Hd Hq. split; [| split]; intros Hr.
  - rewrite app_api_db_up by (rewrite ?Hr; auto). rewrite Hr. simpl api_handler.
    rewrite get_api_requests_eval, Hq. eexists. split; [reflexivity|].
    destruct (listing_complete pending sort_createdAt_desc (appointments w)) as [Hn He].
    split; [exact Hn|]. split; [exact He|].
    apply StronglySorted_merge_sort; apply _.
  - rewrite app_api_db_up by (rewrite ?Hr; auto). rewrite Hr. simpl api_handler.
    rewrite get_api_appointments_eval, Hq. eexists. split; [reflexivity|].
    destruct (listing_complete accepted sort_date_time_asc (appointments w)) as [Hn He].
    split; [exact Hn|]. split; [exact He|].
    apply StronglySorted_merge_sort; apply _.
  - rewrite app_api_db_up by (rewrite ?Hr; auto). rewrite Hr. simpl api_handler.
    rewrite get_api_recent_appointments_eval, Hq.
    exists (listing done sort_createdAt_desc (Some 50%nat) (appointments w)),
           (listing done sort_createdAt_desc None (appointments w)).
    split; [reflexivity|]. split; [reflexivity|].
    destruct (listing_complete done sort_createdAt_desc (appointments w)) as [Hn He].
    split; [unfold listing; simpl; rewrite length_take; lia|].
    split; [exact Hn|]. split; [exact He|].
    apply StronglySorted_merge_sort; apply _.
Qed.

(** ** Accept, complete, reject *)

Lemma set_status_set_status s t a : set_status s (set_status t a) = set_status s a.
Proof. reflexivity. Qed.

Lemma serve_cons env req rest w :
  (serve ((env, req) :: rest) w).2 = (serve rest (app env req w).2).2.
Proof.
  simpl. destruct (app env req w) as [o w']. simpl.
  destruct (serve rest w') as [os w'']. reflexivity.
Qed.

(** No request creates a record. *)
Lemma serve_absent reqs w oid :
  appointments w !! oid = None -> appointments (serve reqs w).2 !! oid = None.
Proof.
  revert w. induction reqs as [|[env req] rest IH]; intros w H; [exact H|].
  rewrite serve_cons. apply IH.
  pose proof (app_record_step env req w oid) as Hs. rewrite H in Hs. exact Hs.
Qed.

(** Whatever requests arrive, a record that is still stored differs from
    what it was in its status at most, and that status was set by accept
    or complete. *)
Lemma serve_record reqs w oid a a' :
  appointments w !! oid = Some a ->
  appointments (serve reqs w).2 !! oid = Some a' ->
  a' = a \/ a' = set_status accepted a \/ a' = set_status done a.
Proof.
  revert w a. induction reqs as [|[env req] rest IH]; intros w a H H'.
  - simpl in H'. left. congruence.
  - rewrite serve_cons in H'.
    pose proof (app_record_step env req w oid) as Hs. rewrite H in Hs.
    destruct Hs as [Hs | [(id & _ & _ & Hs) | [(id & _ & _ & Hs) | (id & _ & _ & Hs)]]].
    + eauto.
    + destruct (IH _ _ Hs H') as [-> | [-> | ->]]; auto.
    + destruct (IH _ _ Hs H') as [-> | [-> | ->]]; auto.
    + rewrite (serve_absent rest _ _ Hs) in H'. discriminate.
Qed.

(** C1, as the code has it. A request changes a stored record in one of
    three ways only, each through an id that casts to the record's [_id]:
    accept sets its status to [accepted], complete sets it to [done], both
    whatever the status was, and reject deletes it. So over any sequence of
    requests a record that was accepted or done is never pending again. *)
Theorem status_never_back_to_pending :
  (forall env req w oid a,
      appointments w !! oid = Some a ->
      appointments (app env req w).2 !! oid = Some a
      \/ (exists id, route req = POST_api_requests_accept id
          /\ castObjectId id = Some oid
          /\ appointments (app env req w).2 !! oid = Some (set_status accepted a))
      \/ (exists id, route req = POST_api_appointments_done id
          /\ castObjectId id = Some oid
          /\ appointments (app env req w).2 !! oid = Some (set_status done a))
      \/ (exists id, route req = POST_api_requests_reject id
          /\ castObjectId id = Some oid
          /\ appointments (app env req w).2 !! oid = None))
  /\ (forall reqs w oid a a',
         appointments w !! oid = Some a ->
         appointments (serve reqs w).2 !! oid = Some a' ->
         status a <> pending ->
         status a' <> pending).
Proof.
  split.
  - intros env req w oid a H.
    pose proof (app_record_step env req w oid) as Hs. rewrite H in Hs. exact Hs.
  - intros reqs w oid a a' H H' Hp.
    destruct (serve_record _ _ _ _ _ H H') as [-> | [-> | ->]];
      [assumption | discriminate | discriminate].
Qed.

(** C4, as the code has it. Accepting an id that names no stored record
    leaves the whole collection as it was, whatever else happens to the
    request. With the session flag set and a connection had, the answer
    is 404 "Appointment not found" when the id casts to an ObjectId and
    the store answers, and 500 "Failed to accept appointment" when the id
    cannot be cast to an ObjectId. *)
Theorem accept_unknown_id (env : Env) (req : Request) (w : World) (id : string) :
  route req = POST_api_requests_accept id ->
  (forall oid, castObjectId id = Some oid -> appointments w !! oid = None) ->
  appointments (app env req w).2 = appointments w
  /\ (isLoggedIn req = JsString "true" ->
      db_available env w = true ->
      (forall oid,
          castObjectId id = Some oid ->
          queryAnswered env = true ->
          app env req w
          = (Resolved (json_error 404 "Appointment not found"), connected w))
      /\ (castObjectId id = None ->
          app env req w
          = (Resolved (json_error 500 "Failed to accept appointment"), connected w))).
Proof.
  intros Hr Hn. split.
  - destruct (app_store_cases env req w)
      as [H | [(i & o & b & Hi & Hc & Hb & _)
             | [(i & o & b & Hi & _) | (i & o & b & Hi & _)]]];
      [exact H | | congruence | congruence].
    assert (i = id) as -> by congruence. rewrite (Hn _ Hc) in Hb. discriminate.
  - intros Hl Hd. rewrite app_api_db_up by (rewrite ?Hr; auto).
    rewrite Hr. simpl api_handler. rewrite post_accept_eval. simpl appointments.
    split.
    + intros oid Hc Hq. rewrite Hq, Hc, (Hn _ Hc). reflexivity.
    + intros Hc. rewrite Hc. destruct (queryAnswered env); reflexivity.
Qed.

(** C5, as the code has it. Accept does not look at the current status.
    With the session flag set, a connection had and the store answering:
    accepting an id that casts to the [_id] of a stored record sets that
    record's status to [accepted] and answers 200 with the updated record,
    whatever the status was; accepting an id that casts to an ObjectId
    naming no record answers 404 "Appointment not found"; accepting an id
    that cannot be cast answers 500 "Failed to accept appointment". *)
Theorem accept_ignores_current_status (env : Env) (req : Request) (w : World)
    (id : string) :
  route req = POST_api_requests_accept id ->
  isLoggedIn req = JsString "true" ->
  db_available env w = true ->
  queryAnswered env = true ->
  (forall oid a,
      castObjectId id = Some oid ->
      appointments w !! oid = Some a ->
      app env req w =
        (Resolved (json_ok (Json_success_appointment (oid, set_status accepted a))),
         with_appointments (connected w) (<[oid := set_status accepted a]> (appointments w)))
      /\ status <$> appointments (app env req w).2 !! oid = Some accepted)
  /\ (forall oid,
         castObjectId id = Some oid ->
         appointments w !! oid = None ->
         app env req w = (Resolved (json_error 404 "Appointment not found"), connected w))
  /\ (castObjectId id = None ->
      app env req w
      = (Resolved (json_error 500 "Failed to accept appointment"), connected w)).
Proof.
  intros Hr Hl Hd Hq.
  rewrite app_api_db_up by (rewrite ?Hr; auto).
  rewrite Hr. simpl api_handler. rewrite post_accept_eval, Hq. simpl appointments.
  split; [|split].
  - intros oid a Hc Ha. rewrite Hc, Ha. split; [reflexivity|].
    simpl. rewrite lookup_insert_eq. reflexivity.
  - intros oid Hc Hn. rewrite Hc, Hn. reflexivity.
  - intros Hc. rewrite Hc. reflexivity.
Qed.

(** C9. When accept or complete answers 200, the id cast to the [_id] of a
    stored record, that record now differs from what it was in its status
    only, every other record is as it was, and the body carries the
    updated record. *)
Theorem update_touches_status_only (env : Env) (req : Request) (w : World)
    (id : string) (s : Status) (r : Response) (w' : World) :
  (route req = POST_api_requests_accept id /\ s = accepted)
  \/ (route req = POST_api_appointments_done id /\ s = done) ->
  app env req w = (Resolved r, w') ->
  statusCode r = 200 ->
  exists oid a a',
    castObjectId id = Some oid
    /\ appointments w !! oid = Some a
    /\ appointments w' !! oid = Some a'
    /\ status a' = s
    /\ name a' = name a /\ email a' = email a /\ phone a' = phone a
    /\ service a' = service a /\ date a' = date a /\ time a' = time a
    /\ createdAt a' = createdAt a
    /\ (forall j, j <> oid -> appointments w' !! j = appointments w !! j)
    /\ payload r = Json_success_appointment (oid, a').
Proof.
  intros Hr Happ Hc.
  assert (Ha : api_route (route req) = true) by (destruct Hr as [[-> _] | [-> _]]; reflexivity).
  destruct (app_api_cases env req w Ha) as [[E _] | [[E _] | [E _]]];
    rewrite E in Happ; clear E.
  - inversion Happ; subst. discriminate.
  - inversion Happ; subst. discriminate.
  - destruct Hr as [[Hr ->] | [Hr ->]]; rewrite Hr in Happ; simpl api_handler in Happ;
      [rewrite post_accept_eval in Happ | rewrite post_done_eval in Happ];
      simpl appointments in Happ;
      (destruct (queryAnswered env); [|inversion Happ; subst; discriminate]);
      (destruct (castObjectId id) as [oid|] eqn:Ho;
         [|inversion Happ; subst; discriminate]);
      (destruct (appointments w !! oid) as [a|] eqn:Hw; [|inversion Happ; subst; discriminate]);
      inversion Happ; subst; simpl;
      eexists oid, a, _; (split; [reflexivity|]); (split; [exact Hw|]);
      (split; [apply lookup_insert_eq|]);
      repeat (split; [reflexivity|]);
      (split; [|reflexivity]); intros j Hj; apply lookup_insert_ne; congruence.
Qed.

(** Only the list routes answer with an array of documents, and the array
    is a listing of the collection the request met. *)
Lemma app_docs_listing env req w r w' docs :
  app env req w = (Resolved r, w') ->
  payload r = Json_docs docs ->
  exists s spec lim, docs = listing s spec lim (appointments w).
Proof.
  intros Happ Hp. destruct (api_route (route req)) eqn:Ha.
  - destruct (app_api_cases env req w Ha) as [[E _] | [[E _] | [E _]]];
      rewrite E in Happ; clear E;
      try (inversion Happ; subst; discriminate).
    destruct (route req) eqn:Hr; simpl in Ha; try discriminate; simpl api_handler in Happ.
    + rewrite get_api_requests_eval in Happ.
      destruct (queryAnswered env); inversion Happ; subst; simpl in Hp; [|discriminate].
      inversion Hp. exists pending, sort_createdAt_desc, None. reflexivity.
    + rewrite post_accept_eval in Happ.
      destruct (queryAnswered env);
        [destruct (castObjectId id) as [oid|]; [destruct (_ !! oid)|]|];
        inversion Happ; subst; discriminate.
    + rewrite post_reject_eval in Happ.
      destruct (queryAnswered env);
        [destruct (castObjectId id) as [oid|]; [destruct (_ !! oid)|]|];
        inversion Happ; subst; discriminate.
    + rewrite get_api_appointments_eval in Happ.
      destruct (queryAnswered env); inversion Happ; subst; simpl in Hp; [|discriminate].
      inversion Hp. exists accepted, sort_date_time_asc, None. reflexivity.
    + rewrite post_done_eval in Happ.
      destruct (queryAnswered env);
        [destruct (castObjectId id) as [oid|]; [destruct (_ !! oid)|]|];
        inversion Happ; subst; discriminate.
    + rewrite get_api_recent_appointments_eval in Happ.
      destruct (queryAnswered env); inversion Happ; subst; simpl in Hp; [|discriminate].
      inversion Hp. exists done, sort_createdAt_desc, (Some 50%nat). reflexivity.
  - exfalso. destruct (page_route (route req)) eqn:Hpg.
    + destruct (stack_page _ Hpg) as [p Hs].
      destruct (decide (isLoggedIn req = JsString "true")) as [Hl | Hl].
      * rewrite (app_gate_open _ _ _ _ Hs Hl) in Happ.
        inversion Happ; subst; discriminate.
      * rewrite (app_gate_closed _ _ _ _ Hs Hl) in Happ.
        inversion Happ; subst; discriminate.
    + unfold app in Happ.
      destruct (route req) eqn:Hr; simpl in Ha, Hpg; try discriminate;
        simpl in Happ; try (inversion Happ; subst; discriminate).
      * unfold finish, bind, get_login in Happ.
        destruct (strict_eq_string _ _); inversion Happ; subst; discriminate.
      * unfold finish, bind in Happ. destruct (db_available env w) eqn:Hd.
        -- rewrite (ensureDbConnection_next _ _ _ Hd) in Happ. unfold post_login in Happ.
           destruct (find _ _); inversion Happ; subst; discriminate.
        -- rewrite (ensureDbConnection_fail _ _ _ Hd) in Happ.
           inversion Happ; subst; discriminate.
Qed.

(** C6, as the code has it. With the session flag set, a connection had
    and the store answering, reject answers 404 exactly when the id casts
    to an ObjectId that names no stored record, and 500 "Failed to reject
    appointment" when the id cannot be cast; otherwise it deletes the
    record the id casts to, whatever its status, and answers success,
    after which no list query, and no list route, returns a document with
    that [_id]. *)
Theorem reject_deletes_whatever_status (env : Env) (req : Request) (w : World)
    (id : string) :
  route req = POST_api_requests_reject id ->
  isLoggedIn req = JsString "true" ->
  db_available env w = true ->
  queryAnswered env = true ->
  exists r w',
    app env req w = (Resolved r, w')
    /\ (statusCode r = 404 <->
        exists oid, castObjectId id = Some oid /\ appointments w !! oid = None)
    /\ (castObjectId id = None ->
        r = json_error 500 "Failed to reject appointment"
        /\ appointments w' = appointments w)
    /\ (forall oid,
           castObjectId id = Some oid ->
           appointments w !! oid = None ->
           r = json_error 404 "Appointment not found" /\ appointments w' = appointments w)
    /\ (forall oid a,
           castObjectId id = Some oid ->
           appointments w !! oid = Some a ->
           r = json_ok Json_success
           /\ appointments w' = delete oid (appointments w)
           /\ (forall s spec lim d, d ∈ listing s spec lim (appointments w') -> d.1 <> oid)
           /\ (forall env' req' r' w'' docs d,
                  app env' req' w' = (Resolved r', w'') ->
                  payload r' = Json_docs docs -> d ∈ docs -> d.1 <> oid)).
Proof.
  intros Hr Hl Hd Hq.
  rewrite app_api_db_up by (rewrite ?Hr; auto).
  rewrite Hr. simpl api_handler. rewrite post_reject_eval, Hq. simpl appointments.
  destruct (castObjectId id) as [oid|] eqn:Hc;
    [destruct (appointments w !! oid) as [a|] eqn:Hw|].
  - eexists _, _. split; [reflexivity|].
    split; [simpl; split; [discriminate | intros (o & Ho & Hn); congruence]|].
    split; [discriminate|].
    split; [intros o Ho Hn; congruence|].
    intros o a0 Ho _. inversion Ho; subst o.
    split; [reflexivity|]. split; [reflexivity|]. simpl.
    assert (Hlist : forall s spec lim d,
               d ∈ listing s spec lim (delete oid (appointments w)) -> d.1 <> oid).
    { intros s spec lim d Hin Heq. apply elem_of_listing in Hin as [Hin _].
      rewrite Heq, lookup_delete_eq in Hin. discriminate. }
    split; [exact Hlist|].
    intros env' req' r' w'' docs d Happ Hp Hin.
    destruct (app_docs_listing _ _ _ _ _ _ Happ Hp) as (s & spec & lim & ->).
    simpl in Hin. eapply Hlist; eassumption.
  - eexists _, _. split; [reflexivity|].
    split; [simpl; split; eauto|].
    split; [discriminate|].
    split; [auto|]. intros o a0 Ho Ha0. congruence.
  - eexists _, _. split; [reflexivity|].
    split; [simpl; split; [discriminate | intros (o & Ho & _); discriminate]|].
    split; [auto|].
    split; [intros o Ho; discriminate|]. intros o a0 Ho. discriminate.
Qed.

(** ** Outcome mapping of the API routes *)

(** C8. An API request with the session flag set always gets a response,
    no exception leaves the application: 500 with "Database connection
    failed" when no connection can be had; 500 with the route's fixed
    message when the query is rejected or the id cannot be cast; 404 with
    "Appointment not found" when the route names a record that is not
    stored; 200 with the result otherwise. *)
Theorem api_outcome_mapping (env : Env) (req : Request) (w : World) :
  api_route (route req) = true ->
  isLoggedIn req = JsString "true" ->
  exists r w',
    app env req w = (Resolved r, w')
    /\ (db_available env w = false ->
        r = json_error 500 "Database connection failed")
    /\ (db_available env w = true -> queryAnswered env = false ->
        r = json_error 500 (failure_message (route req)))
    /\ (db_available env w = true ->
        forall id, target (route req) = Some id -> castObjectId id = None ->
                   r = json_error 500 (failure_message (route req)))
    /\ (db_available env w = true -> queryAnswered env = true ->
        (forall oid, target_id (route req) = Some oid -> appointments w !! oid = None ->
                     r = json_error 404 "Appointment not found")
        /\ ((forall id, target (route req) = Some id ->
                        exists oid, castObjectId id = Some oid
                                    /\ is_Some (appointments w !! oid)) ->
            statusCode r = 200 /\ success_payload (payload r))).
Proof.
  intros Ha Hl. destruct (db_available env w) eqn:Hd.
  - rewrite (app_api_db_up _ _ _ Ha Hl Hd).
    destruct (route req) eqn:Hr; simpl in Ha; try discriminate; simpl api_handler;
      rewrite ?get_api_requests_eval, ?get_api_appointments_eval,
        ?get_api_recent_appointments_eval, ?post_accept_eval, ?post_reject_eval,
        ?post_done_eval; simpl appointments; unfold target_id; simpl target;
      destruct (queryAnswered env) eqn:Hq;
      try (destruct (castObjectId id) as [oid|] eqn:Hc;
           [destruct (appointments w !! oid) as [a|] eqn:Hw|]);
      eexists _, _; (split; [reflexivity|]).
    all: split; [congruence|].
    all: split; [intros; first [reflexivity | congruence]|].
    all: split; [intros; first [reflexivity | congruence]|].
    all: intros _ Hq'; try discriminate Hq'.
    all: split; [intros; first [reflexivity | congruence]|].
    all: intros H; first
      [ split; simpl; [reflexivity | exact I]
      | destruct (H id eq_refl) as (o & Ho & [x Hx]); congruence ].
  - rewrite (app_api_db_down _ _ _ Ha Hl Hd).
    eexists _, _. split; [reflexivity|].
    split; [reflexivity|]. repeat split; discriminate.
Qed.

(** ** Every route, evaluated *)

Lemma app_eval env req w :
  app env req w =
  match route req with
  | GET_login =>
      (Resolved (if strict_eq_string (isLoggedIn req) "true"
                 then home_redirect else login_page), w)
  | POST_login =>
      if db_available env w
      then (Resolved
              (match validAdmin (process_env env)
                       (prop (body req) "username") (prop (body req) "password") with
               | Some _ => login_success (process_env env)
               | None => login_unauthorized
               end), connected w)
      else (Resolved (json_error 500 "Database connection failed"), w)
  | GET_home | GET_see_requests | GET_see_appointments
  | GET_see_recent_appointments =>
      (Resolved (if strict_eq_string (isLoggedIn req) "true"
                 then json_ok (File (page_file (route req))) else login_redirect), w)
  | GET_api_requests | POST_api_requests_accept _ | POST_api_requests_reject _
  | GET_api_appointments | POST_api_appointments_done _
  | GET_api_recent_appointments =>
      if strict_eq_string (isLoggedIn req) "true"
      then if db_available env w
           then finish (api_handler (route req) env req) (connected w)
           else (Resolved (json_error 500 "Database connection failed"), w)
      else (Resolved login_redirect, w)
  | POST_logout => (Resolved logout_response, w)
  | GET_root => (Resolved login_redirect, w)
  | Unmatched => (Resolved page_not_found, w)
  end.
Proof.
  destruct (route req) eqn:Hr.
  all: try (assert (Ha : api_route (route req) = true) by (rewrite Hr; reflexivity);
            destruct (strict_eq_string (isLoggedIn req) "true") eqn:Hl;
            [apply strict_eq_string_true in Hl; destruct (db_available env w) eqn:Hd;
             [rewrite (app_api_db_up _ _ _ Ha Hl Hd), Hr; reflexivity
             |exact (app_api_db_down _ _ _ Ha Hl Hd)]
            |apply strict_eq_string_false in Hl;
             exact (app_gate_closed _ _ _ _ (stack_api _ Ha) Hl)]).
  all: unfold app, finish; rewrite Hr; simpl; unfold bind.
  - unfold get_login. fold (isLoggedIn req).
    destruct (strict_eq_string (isLoggedIn req) "true"); reflexivity.
  - destruct (db_available env w) eqn:Hd.
    + rewrite (ensureDbConnection_next _ _ _ Hd). unfold post_login, validAdmin.
      destruct (find _ _); reflexivity.
    + rewrite (ensureDbConnection_fail _ _ _ Hd). reflexivity.
  - unfold requireAuth. fold (isLoggedIn req).
    destruct (strict_eq_string (isLoggedIn req) "true"); reflexivity.
  - unfold requireAuth. fold (isLoggedIn req).
    destruct (strict_eq_string (isLoggedIn req) "true"); reflexivity.
  - unfold requireAuth. fold (isLoggedIn req).
    destruct (strict_eq_string (isLoggedIn req) "true"); reflexivity.
  - unfold requireAuth. fold (isLoggedIn req).
    destruct (strict_eq_string (isLoggedIn req) "true"); reflexivity.
  - reflexivity.
  - reflexivity.
  - reflexivity.
Qed.

(** Case analysis of one request: the route, the gates, the store's answer. *)
Ltac app_split env req w :=
  rewrite (app_eval env req w);
  destruct (route req) eqn:?Hr; simpl api_handler;
  rewrite ?post_accept_eval, ?post_done_eval, ?post_reject_eval,
    ?get_api_requests_eval, ?get_api_appointments_eval,
    ?get_api_recent_appointments_eval;
  repeat match goal with
    | |- context [if ?b then _ else _] => destruct b eqn:?
    | |- context [match castObjectId ?i with _ => _ end] =>
        destruct (castObjectId i) eqn:?
    | |- context [match appointments ?v !! ?i with _ => _ end] =>
        destruct (appointments v !! i) eqn:?
    | |- context [match validAdmin ?a ?b ?c with _ => _ end] =>
        destruct (validAdmin a b c) eqn:?
    end.

Ltac app_inv env req w :=
  app_split env req w;
  let H := fresh "Happ" in
  intros H; inversion H; subst; clear H.

(** ** Responses *)

(** X1. Every request that reaches the routes, its body parsed and its
    parameters decoded, is answered by the application's own handlers,
    whatever the store does: no exception leaves them, and the status
    they set is one of 200, 302, 401, 404 and 500. *)
Theorem every_request_is_answered (env : Env) (req : Request) (w : World) :
  exists r w',
    app env req w = (Resolved r, w')
    /\ (statusCode r = 200 \/ statusCode r = 302 \/ statusCode r = 401
        \/ statusCode r = 404 \/ statusCode r = 500).
Proof.
  app_split env req w; eexists _, _; (split; [reflexivity|]); simpl; auto 6.
Qed.

(** X2. The session cookie is written by a successful login and cleared
    by logout, and by nothing else: every other response, the failed
    logins included, carries no cookie header. *)
Theorem only_login_and_logout_write_the_cookie (env : Env) (req : Request)
    (w w' : World) (r : Response) :
  app env req w = (Resolved r, w') ->
  headers r <> [] ->
  (route req = POST_login /\ r = login_success (process_env env))
  \/ (route req = POST_logout /\ r = logout_response).
Proof.
  revert w' r. intros w' r. app_inv env req w; simpl; intros Hh;
    try (exfalso; apply Hh; reflexivity); auto.
Qed.

(** X3. The collection changes only through accept, complete or reject,
    sent with the session flag set, naming a stored record and answered
    200: a redirect, a 401, a 404 or a 500 means the collection is as it
    was, and so does every GET. *)
Theorem collection_changes_only_on_success (env : Env) (req : Request)
    (w w' : World) (r : Response) :
  app env req w = (Resolved r, w') ->
  appointments w' <> appointments w ->
  statusCode r = 200
  /\ isLoggedIn req = JsString "true"
  /\ exists oid, target_id (route req) = Some oid /\ is_Some (appointments w !! oid).
Proof.
  revert w' r. intros w' r. unfold target_id.
  app_inv env req w; simpl; intros Hc;
    try (exfalso; apply Hc; reflexivity).
  all: split; [reflexivity|]; split;
    [apply strict_eq_string_true; assumption|]; eexists; split; [eassumption|];
    simpl in *; eauto.
Qed.

(** ** Sequences of requests *)

Lemma serve_cons_responses env req rest w :
  (serve ((env, req) :: rest) w).1
  = (app env req w).1 :: (serve rest (app env req w).2).1.
Proof.
  simpl. destruct (app env req w) as [o w']. simpl.
  destruct (serve rest w') as [os w'']. reflexivity.
Qed.

Lemma app_anonymous env req w :
  isLoggedIn req <> JsString "true" ->
  exists r w',
    app env req w = (Resolved r, w')
    /\ appointments w' = appointments w
    /\ ~ carries_appointments (payload r).
Proof.
  intros Hl. apply strict_eq_string_false in Hl.
  app_split env req w; try congruence;
    eexists _, _; (split; [reflexivity|]); split; try reflexivity; simpl; tauto.
Qed.

(** X4. Requests without the session flag, in any number and on any
    routes, leave the collection as it was, and none of their responses
    carries an appointment record. *)
Theorem anonymous_requests_see_and_change_nothing
    (reqs : list (Env * Request)) (w : World) :
  Forall anonymous reqs ->
  appointments (serve reqs w).2 = appointments w
  /\ Forall (fun o => exists r, o = Resolved r /\ ~ carries_appointments (payload r))
       (serve reqs w).1.
Proof.
  intros H. revert w. induction H as [|[env req] rest Hx _ IH]; intros w.
  - simpl. split; [reflexivity | constructor].
  - destruct (app_anonymous env req w Hx) as (r & w' & Happ & Hc & Hp).
    rewrite serve_cons, serve_cons_responses, Happ. simpl.
    destruct (IH w') as [IH1 IH2]. split; [congruence|].
    constructor; [eauto | exact IH2].
Qed.

Lemma app_keeps_cache env req w :
  is_Some (cachedDb w) -> is_Some (cachedDb (app env req w).2).
Proof.
  intros H. app_split env req w; simpl; eauto.
Qed.

Lemma serve_keeps_cache reqs w :
  is_Some (cachedDb w) -> is_Some (cachedDb (serve reqs w).2).
Proof.
  revert w. induction reqs as [|[env req] rest IH]; intros w H; [exact H|].
  rewrite serve_cons. apply IH, app_keeps_cache, H.
Qed.

(** X5. A cached connection is never dropped: once [cachedDb] is set, it
    stays set through every later request, failed reconnections
    included. *)
Theorem cached_connection_is_kept (reqs : list (Env * Request)) (w : World) :
  is_Some (cachedDb w) -> is_Some (cachedDb (serve reqs w).2).
Proof.
  revert w. induction reqs as [|[env req] rest IH]; intros w H.
  - exact H.
  - rewrite serve_cons. apply IH.
    destruct H as [c Hc]. pose proof (app_eval env req w) as E.
    destruct (app env req w) as [o w1]. simpl.
    destruct (route req); simpl api_handler in E;
      rewrite ?post_accept_eval, ?post_done_eval, ?post_reject_eval,
        ?get_api_requests_eval, ?get_api_appointments_eval,
        ?get_api_recent_appointments_eval in E;
      repeat match type of E with
        | context [if ?b then _ else _] => destruct b
        | context [match castObjectId ?i with _ => _ end] =>
            destruct (castObjectId i)
        | context [match appointments ?v !! ?i with _ => _ end] =>
            destruct (appointments v !! i)
        end;
      inversion E; subst; simpl; eauto.
Qed.

(** X6. No sequence of requests creates a record: the ids stored
    afterwards were all stored before. *)
Theorem no_request_creates_a_record (reqs : list (Env * Request)) (w : World) :
  dom (appointments (serve reqs w).2) ⊆ dom (appointments w).
Proof.
  intros id Hin. apply elem_of_dom in Hin. apply elem_of_dom.
  destruct (appointments w !! id) eqn:E; [eauto|].
  rewrite (serve_absent reqs w id E) in Hin. destruct Hin as [? ?]. discriminate.
Qed.

(** X7. Through any sequence of requests a record that is still stored
    keeps its name, email, phone, service, date, time and creation time:
    only the status is ever written. *)
Theorem only_the_status_is_ever_written (reqs : list (Env * Request)) (w : World)
    (id : string) (a a' : Appointment) :
  appointments w !! id = Some a ->
  appointments (serve reqs w).2 !! id = Some a' ->
  name a' = name a /\ email a' = email a /\ phone a' = phone a
  /\ service a' = service a /\ date a' = date a /\ time a' = time a
  /\ createdAt a' = createdAt a.
Proof.
  intros H H'. destruct (serve_record _ _ _ _ _ H H') as [-> | [-> | ->]];
    repeat split; reflexivity.
Qed.

(** ** Session cookie, login page and home page *)

(** X8. The cookie a response sets is the one the gate reads: a request
    that sends back any cookie set by the application passes
    [requireAuth] and is sent on from the login page to the home page; a
    request that lacks a cookie the application cleared is stopped by
    [requireAuth] with the redirect to the login page. *)
Theorem session_cookie_round_trip (env : Env) (req : Request) (w w' : World)
    (r : Response) :
  app env req w = (Resolved r, w') ->
  (forall n v o env' req' v',
      SetCookie n v o ∈ headers r ->
      cookies req' !! n = Some (JsString v) ->
      requireAuth env' req' v' = (Resolved Next, v')
      /\ (route req' = GET_login -> app env' req' v' = (Resolved home_redirect, v')))
  /\ (forall n env' req' v',
         ClearCookie n ∈ headers r ->
         cookies req' !! n = None ->
         requireAuth env' req' v' = (Resolved (Respond login_redirect), v')).
Proof.
  revert w' r. intros w' r. app_inv env req w; simpl; split.
  all: try (intros n v o env' req' v' Hin; apply elem_of_nil in Hin; contradiction).
  all: try (intros n env' req' v' Hin; apply elem_of_nil in Hin; contradiction).
  - intros n v o env' req' v' Hin Hc.
    apply list_elem_of_singleton in Hin. inversion Hin; subst.
    assert (Hl : isLoggedIn req' = JsString "true")
      by (unfold isLoggedIn, prop; rewrite Hc; reflexivity).
    split; [apply requireAuth_next; exact Hl|].
    intros Hr'. rewrite app_eval, Hr'.
    apply strict_eq_string_true in Hl. rewrite Hl. reflexivity.
  - intros n env' req' v' Hin. apply list_elem_of_singleton in Hin. discriminate.
  - intros n v o env' req' v' Hin. apply list_elem_of_singleton in Hin. discriminate.
  - intros n env' req' v' Hin Hc.
    apply list_elem_of_singleton in Hin. inversion Hin; subst.
    apply requireAuth_redirect. unfold isLoggedIn, prop. rewrite Hc. discriminate.
Qed.

(** X9. The login page and the protected pages never bounce a browser
    between them: with the same cookies, either the login page redirects
    to the home page and every protected page is served, or the login
    page is served and every protected page redirects to it. *)
Theorem login_and_pages_do_not_bounce (env : Env) (req_login req_page : Request)
    (w : World) :
  route req_login = GET_login ->
  page_route (route req_page) = true ->
  cookies req_login = cookies req_page ->
  (app env req_login w = (Resolved home_redirect, w)
   /\ app env req_page w
      = (Resolved (json_ok (File (page_file (route req_page)))), w))
  \/ (app env req_login w = (Resolved login_page, w)
      /\ app env req_page w = (Resolved login_redirect, w)).
Proof.
  intros Hl Hp Hc. rewrite !app_eval, Hl.
  assert (E : isLoggedIn req_login = isLoggedIn req_page)
    by (unfold isLoggedIn; rewrite Hc; reflexivity).
  rewrite E.
  destruct (route req_page); simpl in Hp; try discriminate;
    destruct (strict_eq_string (isLoggedIn req_page) "true"); auto.
Qed.

(** ** Configured credentials *)

Lemma env_or_nonempty penv k d : d <> "" -> env_or penv k d <> "".
Proof.
  intros Hd. unfold env_or. destruct (penv !! k) as [s|]; [|exact Hd].
  case_bool_decide; assumption.
Qed.

Lemma env_or_default penv k d :
  penv !! k = None \/ penv !! k = Some "" -> env_or penv k d = d.
Proof. unfold env_or. intros [-> | ->]; reflexivity. Qed.

Lemma ADMIN_USERS_nonempty penv admin :
  admin ∈ ADMIN_USERS penv -> username admin <> "" /\ password admin <> "".
Proof.
  unfold ADMIN_USERS. intros H.
  apply elem_of_cons in H as [-> | H]; [|apply list_elem_of_singleton in H as ->];
    simpl; split; apply env_or_nonempty; discriminate.
Qed.

(** X10. Whatever the environment variables hold, a login is answered 200
    only when the submitted username and password are both non-empty
    strings: a missing field, [null], a number, an object or the empty
    string never logs in, not even against a variable set to the empty
    string. *)
Theorem login_needs_two_nonempty_strings (env : Env) (req : Request)
    (w w' : World) (r : Response) :
  route req = POST_login ->
  app env req w = (Resolved r, w') ->
  statusCode r = 200 ->
  exists u p,
    prop (body req) "username" = JsString u
    /\ prop (body req) "password" = JsString p
    /\ u <> "" /\ p <> "".
Proof.
  intros Hr. rewrite app_eval, Hr.
  destruct (db_available env w); [|intros H; inversion H; subst; discriminate].
  destruct (validAdmin _ _ _) as [a|] eqn:E;
    [|intros H; inversion H; subst; discriminate].
  intros _ _. apply find_admin_Some in E as (admin & Hin & Hu & Hp).
  destruct (ADMIN_USERS_nonempty _ _ Hin). eauto 6.
Qed.

(** X11. A variable that is unset or set to the empty string leaves its
    default in force: when the connection gate passes, "admin1" with
    "password1" logs in if [ADMIN_USERNAME_1] and [ADMIN_PASSWORD_1] are
    both unset or empty, and likewise "admin2" with "password2" for the
    second pair. *)
Theorem empty_variables_leave_the_defaults (env : Env) (req : Request) (w : World) :
  route req = POST_login ->
  db_available env w = true ->
  ((process_env env !! "ADMIN_USERNAME_1" = None
    \/ process_env env !! "ADMIN_USERNAME_1" = Some "") ->
   (process_env env !! "ADMIN_PASSWORD_1" = None
    \/ process_env env !! "ADMIN_PASSWORD_1" = Some "") ->
   prop (body req) "username" = JsString "admin1" ->
   prop (body req) "password" = JsString "password1" ->
   app env req w = (Resolved (login_success (process_env env)), connected w))
  /\ ((process_env env !! "ADMIN_USERNAME_2" = None
       \/ process_env env !! "ADMIN_USERNAME_2" = Some "") ->
      (process_env env !! "ADMIN_PASSWORD_2" = None
       \/ process_env env !! "ADMIN_PASSWORD_2" = Some "") ->
      prop (body req) "username" = JsString "admin2" ->
      prop (body req) "password" = JsString "password2" ->
      app env req w = (Resolved (login_success (process_env env)), connected w)).
Proof.
  intros Hr Hd. rewrite app_eval, Hr, Hd.
  split; intros Hu Hp Eu Ep; rewrite Eu, Ep;
    destruct (validAdmin _ _ _) eqn:E; try reflexivity; exfalso;
    apply find_admin_None in E; apply E; unfold credentials_match, ADMIN_USERS.
  - eexists. split; [apply elem_of_cons; left; reflexivity|]. simpl.
    rewrite !env_or_default by assumption. split; reflexivity.
  - eexists. split; [apply elem_of_cons; right; apply list_elem_of_singleton; reflexivity|].
    simpl. rewrite !env_or_default by assumption. split; reflexivity.
Qed.

(** ** How updates compose *)

Lemma insert_set_status (coll : gmap string Appointment) id s a :
  coll !! id = Some a -> <[id := set_status s a]> coll = alter (set_status s) id coll.
Proof.
  intros H. apply map_eq. intros j. rewrite lookup_insert, lookup_alter.
  case_decide; subst; [rewrite H|]; reflexivity.
Qed.

Lemma alter_absent (coll : gmap string Appointment) id f :
  coll !! id = None -> alter f id coll = coll.
Proof.
  intros H. apply map_eq. intros j. rewrite lookup_alter.
  case_decide; subst; [rewrite H|]; reflexivity.
Qed.

Lemma delete_absent (coll : gmap string Appointment) id :
  coll !! id = None -> delete id coll = coll.
Proof.
  intros H. apply map_eq. intros j. rewrite lookup_delete.
  case_decide; subst; [rewrite H|]; reflexivity.
Qed.

(** The collection after one request, in closed form. *)
Lemma app_effect env req w :
  appointments (app env req w).2
  = if takes_effect env req w
    then store_effect (route req) (appointments w)
    else appointments w.
Proof.
  unfold takes_effect, store_effect, target_id. rewrite app_eval.
  destruct (strict_eq_string (isLoggedIn req) "true"), (db_available env w),
    (queryAnswered env) eqn:Hq; simpl andb; cbv iota;
    destruct (route req); simpl api_handler;
    rewrite ?post_accept_eval, ?post_done_eval, ?post_reject_eval,
      ?get_api_requests_eval, ?get_api_appointments_eval,
      ?get_api_recent_appointments_eval, ?Hq;
    simpl; try reflexivity;
    try (destruct (validAdmin _ _ _); reflexivity);
    (destruct (castObjectId id) as [oid|]; [|reflexivity]);
    destruct (appointments w !! oid) eqn:E; simpl;
    auto using insert_set_status, eq_sym, alter_absent, delete_absent.
Qed.

Lemma db_available_kept env env' req' w :
  db_available env w = true -> db_available env (app env' req' w).2 = true.
Proof.
  unfold db_available. intros H.
  pose proof (app_keeps_cache env' req' w) as Hk.
  destruct (cachedDb w) as [c|].
  - destruct (Hk (ex_intro _ c eq_refl)) as [c' ->]. exact H.
  - destruct (cachedDb (app env' req' w).2), (readyState env =? 1); auto.
Qed.

Lemma takes_effect_stable env req w w' :
  db_available env w = true -> db_available env w' = true ->
  takes_effect env req w' = takes_effect env req w.
Proof. unfold takes_effect. intros -> ->. reflexivity. Qed.

Lemma store_effect_commute r1 r2 (coll : gmap string Appointment) :
  (forall oid, target_id r1 = Some oid -> target_id r2 <> Some oid) ->
  store_effect r2 (store_effect r1 coll) = store_effect r1 (store_effect r2 coll).
Proof.
  unfold store_effect, target_id. intros Hne.
  destruct r1; simpl in *; try reflexivity;
    (destruct (castObjectId id) as [o1|] eqn:E1; [|reflexivity]);
    destruct r2; simpl in *; try reflexivity;
    (destruct (castObjectId id0) as [o2|] eqn:E2; [|reflexivity]);
    assert (o1 <> o2) by (intros ->; exact (Hne _ eq_refl eq_refl));
    apply map_eq; intros j;
    rewrite ?lookup_alter, ?lookup_delete;
    repeat case_decide; subst; rewrite ?lookup_alter, ?lookup_delete;
    repeat case_decide; subst; congruence.
Qed.

(** X12. Two requests whose ids do not cast to the same ObjectId can be
    served in either order: when a connection can be had for both, the
    collection afterwards is the same. *)
Theorem requests_on_different_records_commute (env1 env2 : Env)
    (req1 req2 : Request) (w : World) :
  db_available env1 w = true ->
  db_available env2 w = true ->
  (forall oid, target_id (route req1) = Some oid -> target_id (route req2) <> Some oid) ->
  appointments (serve [(env1, req1); (env2, req2)] w).2
  = appointments (serve [(env2, req2); (env1, req1)] w).2.
Proof.
  intros H1 H2 Hne. rewrite !serve_cons. simpl serve. simpl snd.
  rewrite (app_effect env2 req2 (app env1 req1 w).2),
          (app_effect env1 req1 (app env2 req2 w).2).
  rewrite (takes_effect_stable env2 req2 w) by auto using db_available_kept.
  rewrite (takes_effect_stable env1 req1 w) by auto using db_available_kept.
  rewrite !app_effect.
  destruct (takes_effect env1 req1 w), (takes_effect env2 req2 w); try reflexivity.
  apply store_effect_commute. exact Hne.
Qed.

(** X13. Accepting a record that is already accepted, or completing one
    that is already done, changes nothing in the collection, and past the
    gates it is answered 200 with the record as it is, not refused. *)
Theorem repeating_an_update_changes_nothing (env : Env) (req : Request) (w : World)
    (id oid : string) (a : Appointment) :
  castObjectId id = Some oid ->
  appointments w !! oid = Some a ->
  (route req = POST_api_requests_accept id /\ status a = accepted)
  \/ (route req = POST_api_appointments_done id /\ status a = done) ->
  appointments (app env req w).2 = appointments w
  /\ (takes_effect env req w = true ->
      (app env req w).1 = Resolved (json_ok (Json_success_appointment (oid, a)))).
Proof.
  intros Hc Ha Hr.
  assert (Hs : forall s, status a = s -> set_status s a = a)
    by (intros s <-; destruct a; reflexivity).
  split.
  - rewrite app_effect. destruct (takes_effect env req w); [|reflexivity].
    unfold store_effect, target_id.
    destruct Hr as [[-> Hst] | [-> Hst]]; simpl; rewrite Hc;
      rewrite <- (insert_set_status _ _ _ _ Ha), (Hs _ Hst); apply insert_id, Ha.
  - unfold takes_effect. intros Ht.
    apply andb_true_iff in Ht as [Ht Hq]. apply andb_true_iff in Ht as [Hl Hd].
    rewrite app_eval.
    destruct Hr as [[-> Hst] | [-> Hst]]; rewrite Hl, Hd; simpl api_handler;
      rewrite ?post_accept_eval, ?post_done_eval, Hq, Hc; simpl appointments;
      rewrite Ha, (Hs _ Hst); reflexivity.
Qed.

Lemma app_target_absent env req w oid :
  target_id (route req) = Some oid ->
  appointments w !! oid = None ->
  takes_effect env req w = true ->
  app env req w = (Resolved not_found, connected w).
Proof.
  unfold takes_effect, target_id. intros Ht Hn He.
  apply andb_true_iff in He as [He Hq]. apply andb_true_iff in He as [Hl Hd].
  rewrite app_eval.
  destruct (route req); simpl in Ht; try discriminate;
    rewrite Hl, Hd; simpl api_handler;
    rewrite ?post_accept_eval, ?post_done_eval, ?post_reject_eval, Hq, Ht;
    simpl appointments; rewrite Hn; reflexivity.
Qed.

(** X14. Rejection is final: after a reject answered 200, whatever
    requests follow, the [_id] the rejected id cast to is not stored
    again, and an accept, complete or reject of it, in any spelling, that
    reaches the store is answered 404. *)
Theorem a_rejected_record_never_returns (env : Env) (req : Request) (w w' : World)
    (r : Response) (id : string) (reqs : list (Env * Request)) :
  route req = POST_api_requests_reject id ->
  app env req w = (Resolved r, w') ->
  statusCode r = 200 ->
  exists oid,
    castObjectId id = Some oid
    /\ appointments (serve reqs w').2 !! oid = None
    /\ (forall env' req',
           target_id (route req') = Some oid ->
           takes_effect env' req' (serve reqs w').2 = true ->
           app env' req' (serve reqs w').2
           = (Resolved (json_error 404 "Appointment not found"),
              connected (serve reqs w').2)).
Proof.
  intros Hr Happ Hc.
  assert (Hgone : exists oid, castObjectId id = Some oid /\ appointments w' !! oid = None).
  { revert Happ. rewrite app_eval, Hr. simpl api_handler. rewrite post_reject_eval.
    repeat match goal with
      | |- context [if ?b then _ else _] => destruct b eqn:?
      | |- context [match castObjectId ?i with _ => _ end] =>
          destruct (castObjectId i) as [oid|] eqn:?
      | |- context [match appointments ?v !! ?i with _ => _ end] =>
          destruct (appointments v !! i) eqn:?
      end; intros H; inversion H; subst; simpl in *; try discriminate.
    exists oid. split; [reflexivity|]. apply lookup_delete_eq. }
  destruct Hgone as (oid & Ho & Hgone).
  pose proof (serve_absent reqs w' oid Hgone) as Hfinal.
  exists oid. split; [exact Ho|]. split; [exact Hfinal|].
  intros env' req' Ht He. apply (app_target_absent _ _ _ oid); assumption.
Qed.

(** ** The three lists together *)

Lemma length_listing s spec coll :
  length (listing s spec None coll) = length (matching s coll).
Proof. unfold listing. simpl. apply Permutation_length, sort_docs_Permutation. Qed.

Lemma length_by_status (l : list Doc) :
  (length (filter (has_status pending) l) + length (filter (has_status accepted) l)
   + length (filter (has_status done) l) = length l)%nat.
Proof.
  induction l as [|d l IH]; [reflexivity|].
  rewrite !filter_cons.
  repeat case_decide; unfold has_status in *; simpl; try lia;
    destruct (status d.2); congruence.
Qed.

Lemma Appointment_find_listing env s spec lim w l w' :
  Appointment_find env s spec lim w = (Resolved l, w') ->
  l = listing s spec lim (appointments w) /\ w' = w.
Proof.
  unfold Appointment_find. destruct (queryAnswered env); intros H; inversion H.
  split; reflexivity.
Qed.

(** X15. The three list queries of the routes never show one record
    twice: no id is in two of the lists. Together they hold at most as
    many records as are stored, and exactly as many whenever the recent
    list is below its cap of 50. *)
Theorem lists_are_disjoint_and_cover (env : Env) (w wp wa wd : World)
    (lp la ld : list Doc) :
  Appointment_find env pending sort_createdAt_desc None w = (Resolved lp, wp) ->
  Appointment_find env accepted sort_date_time_asc None w = (Resolved la, wa) ->
  Appointment_find env done sort_createdAt_desc (Some 50%nat) w = (Resolved ld, wd) ->
  (forall d d', d ∈ lp -> d' ∈ la -> d.1 <> d'.1)
  /\ (forall d d', d ∈ lp -> d' ∈ ld -> d.1 <> d'.1)
  /\ (forall d d', d ∈ la -> d' ∈ ld -> d.1 <> d'.1)
  /\ (length lp + length la + length ld <= size (appointments w))%nat
  /\ ((length ld < 50)%nat ->
      (length lp + length la + length ld = size (appointments w))%nat).
Proof.
  intros Hp Ha Hd.
  apply Appointment_find_listing in Hp as [-> _], Ha as [-> _], Hd as [-> _].
  assert (Hdis : forall s t spec spec' lim lim' d d',
             s <> t ->
             d ∈ listing s spec lim (appointments w) ->
             d' ∈ listing t spec' lim' (appointments w) -> d.1 <> d'.1).
  { intros s t spec spec' lim lim' d d' Hst Hin Hin' Heq.
    apply elem_of_listing in Hin as [H1 H2], Hin' as [H1' H2'].
    rewrite Heq in H1. congruence. }
  split; [intros d d'; apply (Hdis pending accepted); discriminate|].
  split; [intros d d'; apply (Hdis pending done); discriminate|].
  split; [intros d d'; apply (Hdis accepted done); discriminate|].
  assert (Hsum : (length (matching pending (appointments w))
                  + length (matching accepted (appointments w))
                  + length (matching done (appointments w))
                  = size (appointments w))%nat).
  { rewrite <- (length_map_to_list (appointments w)).
    exact (length_by_status (map_to_list (appointments w))). }
  rewrite !length_listing.
  assert (Hld : length (listing done sort_createdAt_desc (Some 50%nat) (appointments w))
                = (50 `min` length (matching done (appointments w)))%nat).
  { unfold listing, apply_limit, sort_docs. rewrite length_take.
    rewrite (Permutation_length (merge_sort_Permutation createdAt_desc _)).
    reflexivity. }
  rewrite Hld. split; lia.
Qed.

(** X16. The recent list is cut by creation time: a done record is left
    out of it only when the list already holds 50 records, none of them
    created before the one left out. *)
Theorem recent_list_keeps_the_newest (env : Env) (w w' : World) (ld : list Doc)
    (id : string) (a : Appointment) :
  Appointment_find env done sort_createdAt_desc (Some 50%nat) w = (Resolved ld, w') ->
  appointments w !! id = Some a ->
  status a = done ->
  (id, a) ∉ ld ->
  length ld = 50%nat /\ forall d, d ∈ ld -> createdAt a <= createdAt d.2.
Proof.
  intros Hf Ha Hs Hout. apply Appointment_find_listing in Hf as [-> _].
  unfold listing in *. simpl in *.
  set (all := merge_sort createdAt_desc (matching done (appointments w))) in *.
  assert (Hin : (id, a) ∈ all).
  { unfold all. rewrite merge_sort_Permutation. apply elem_of_matching. auto. }
  assert (Hsorted : StronglySorted createdAt_desc (take 50 all ++ drop 50 all)).
  { rewrite take_drop. apply StronglySorted_merge_sort; apply _. }
  rewrite <- (take_drop 50 all) in Hin. apply elem_of_app in Hin as [Hin | Hin];
    [contradiction|].
  split.
  - rewrite length_take. destruct (decide (50 <= length all)%nat) as [|Hlt]; [lia|].
    rewrite drop_ge in Hin by lia. apply elem_of_nil in Hin. contradiction.
  - intros d Hd.
    exact (StronglySorted_app_1_elem_of _ _ _ _ _ Hsorted Hd Hin).
Qed.

(** ** Start-up *)

Lemma ensureDbConnection_cached env req w :
  is_Some (cachedDb w) -> readyState env = 1 ->
  ensureDbConnection env req w = (Resolved Next, w).
Proof.
  intros [c Hc] Hr.
  assert (Hd : db_available env w = true)
    by (unfold db_available; rewrite Hc, Hr; reflexivity).
  rewrite (ensureDbConnection_next _ _ _ Hd). f_equal.
  destruct w as [c' apps]. simpl in Hc. subst. destruct c. reflexivity.
Qed.

(** X17. The process exits with code 1 when the first connection fails,
    and listens only with a connection cached; from then on every request
    that finds the connection ready passes [ensureDbConnection] on that
    cached connection, with no new connection attempt. *)
Theorem a_started_server_reuses_its_connection (env : Env)
    (coll : gmap string Appointment) :
  (connectSucceeds env = false -> main env coll = Exited 1)
  /\ (connectSucceeds env = true ->
      exists w,
        main env coll = Listening w
        /\ appointments w = coll
        /\ forall reqs env' req',
             readyState env' = 1 ->
             ensureDbConnection env' req' (serve reqs w).2
             = (Resolved Next, (serve reqs w).2)).
Proof.
  unfold main, connectToDatabase, try_catch, bind, mongoose_connect. simpl.
  split; intros ->; simpl; [reflexivity|].
  eexists. split; [reflexivity|]. split; [reflexivity|].
  intros reqs env' req' Hr. apply ensureDbConnection_cached; [|exact Hr].
  apply serve_keeps_cache. simpl. eauto.
Qed.

(** ** Failed connections, and a record's way to the recent list *)

(** X18. A failed connection attempt is not remembered: a request answered
    500 "Database connection failed" leaves the whole process state, the
    connection cache included, as it was, so the next request connects
    afresh. *)
Theorem a_failed_connection_changes_nothing (env : Env) (req : Request)
    (w w' : World) (r : Response) :
  app env req w = (Resolved r, w') ->
  r = json_error 500 "Database connection failed" ->
  w' = w /\ db_available env w = false.
Proof.
  revert w' r. intros w' r. app_inv env req w; intros Hr'; try discriminate;
    auto.
Qed.

Lemma takes_effect_kept env req env' req' w :
  takes_effect env req w = true ->
  takes_effect env req (app env' req' w).2 = true.
Proof.
  unfold takes_effect. intros H.
  apply andb_true_iff in H as [H Hq]. apply andb_true_iff in H as [Hl Hd].
  rewrite Hl, Hq, (db_available_kept _ env' req' _ Hd). reflexivity.
Qed.

Lemma app_recent env req w :
  route req = GET_api_recent_appointments ->
  takes_effect env req w = true ->
  (app env req w).1
  = Resolved (json_ok (Json_docs
      (listing done sort_createdAt_desc (Some 50%nat) (appointments w)))).
Proof.
  unfold takes_effect. intros Hr H.
  apply andb_true_iff in H as [H Hq]. apply andb_true_iff in H as [Hl Hd].
  rewrite app_eval, Hr, Hl, Hd. simpl api_handler.
  rewrite get_api_recent_appointments_eval, Hq. reflexivity.
Qed.

Lemma matching_after_update (coll : gmap string Appointment) id s a :
  coll !! id = Some a ->
  (length (matching s (alter (set_status s) id coll)) <= S (length (matching s coll)))%nat.
Proof.
  intros Ha.
  change (S (length (matching s coll)))
    with (length ((id, set_status s a) :: matching s coll)).
  apply submseteq_length, NoDup_submseteq; [apply NoDup_matching|].
  intros [j b] Hin. apply elem_of_matching in Hin as [Hj Hs]. simpl in *.
  rewrite lookup_alter in Hj. case_decide.
  - subst. rewrite Ha in Hj. inversion Hj. left.
  - right. apply elem_of_matching. auto.
Qed.

(** X19. From request to recent list: when the accept and the complete of
    a stored record, each through an id that casts to its [_id], and then
    the recent-appointments query all reach the store, and fewer than 50
    records were done before, the third answer lists the record with
    status [done]. *)
Theorem accepted_then_completed_is_listed (env1 env2 env3 : Env)
    (req1 req2 req3 : Request) (w : World) (id1 id2 id : string) (a : Appointment) :
  route req1 = POST_api_requests_accept id1 ->
  route req2 = POST_api_appointments_done id2 ->
  route req3 = GET_api_recent_appointments ->
  castObjectId id1 = Some id ->
  castObjectId id2 = Some id ->
  takes_effect env1 req1 w = true ->
  takes_effect env2 req2 w = true ->
  takes_effect env3 req3 w = true ->
  appointments w !! id = Some a ->
  (length (matching done (appointments w)) < 50)%nat ->
  exists l,
    (serve [(env1, req1); (env2, req2); (env3, req3)] w).1 !! 2%nat
    = Some (Resolved (json_ok (Json_docs l)))
    /\ (id, set_status done a) ∈ l.
Proof.
  intros Hr1 Hr2 Hr3 Hc1 Hc2 H1 H2 H3 Ha Hlen.
  set (w1 := (app env1 req1 w).2). set (w2 := (app env2 req2 w1).2).
  assert (H2' : takes_effect env2 req2 w1 = true) by (apply takes_effect_kept, H2).
  assert (H3' : takes_effect env3 req3 w2 = true)
    by (apply takes_effect_kept, takes_effect_kept, H3).
  assert (E1 : appointments w1 = alter (set_status accepted) id (appointments w)).
  { unfold w1. rewrite app_effect, H1, Hr1.
    unfold store_effect, target_id. simpl. rewrite Hc1. reflexivity. }
  assert (E2 : appointments w2 = alter (set_status done) id (appointments w1)).
  { unfold w2. rewrite app_effect, H2', Hr2.
    unfold store_effect, target_id. simpl. rewrite Hc2. reflexivity. }
  assert (Hw1 : appointments w1 !! id = Some (set_status accepted a))
    by (rewrite E1, lookup_alter_eq, Ha; reflexivity).
  assert (Hw2 : appointments w2 !! id = Some (set_status done a))
    by (rewrite E2, lookup_alter_eq, Hw1; reflexivity).
  exists (listing done sort_createdAt_desc (Some 50%nat) (appointments w2)).
  split.
  - rewrite !serve_cons_responses. fold w1. fold w2. simpl.
    rewrite (app_recent _ _ _ Hr3 H3'). reflexivity.
  - unfold listing, apply_limit, sort_docs.
    assert (Hle : (length (matching done (appointments w2)) <= 50)%nat).
    { rewrite E2. etrans; [apply (matching_after_update _ _ _ _ Hw1)|].
      assert (Hsub : matching done (appointments w1) ⊆+ matching done (appointments w)).
      { apply NoDup_submseteq; [apply NoDup_matching|].
        intros [j b]. rewrite !elem_of_matching, E1, lookup_alter. simpl.
        case_decide; [|tauto]. subst. rewrite Ha. simpl.
        intros [Hx Hy]. inversion Hx; subst. discriminate. }
      apply submseteq_length in Hsub. lia. }
    rewrite take_ge
      by (rewrite (Permutation_length (merge_sort_Permutation _ _)); exact Hle).
    rewrite merge_sort_Permutation. apply elem_of_matching. auto.
Qed.

End Application.

(** ** The theorems on the sample data *)

Lemma requireAuth_gate_sample :
  app ObjectId_of_hex store_up (without_session GET_api_requests) sample_world
  = (Resolved login_redirect, sample_world).
Proof.
  destruct (requireAuth_gate ObjectId_of_hex store_up
              (without_session GET_api_requests) sample_world) as (_ & _ & H).
  destruct (H eq_refl) as (rest & _ & _ & Hclosed).
  apply Hclosed. vm_compute. discriminate.
Defined.

Lemma get_login_session_redirect_sample :
  exists r,
    app ObjectId_of_hex store_up (with_session GET_login) sample_world
    = (Resolved r, sample_world)
    /\ (isLoggedIn (with_session GET_login) = JsString "true" ->
        r = {| statusCode := 302; headers := []; payload := Redirect "/home" |})
    /\ (isLoggedIn (with_session GET_login) <> JsString "true" ->
        r = json_ok (File ["pages"; "login"; "login.html"]))
    /\ (payload r = File ["pages"; "login"; "login.html"] <->
        isLoggedIn (with_session GET_login) <> JsString "true").
Proof.
  apply (get_login_session_redirect ObjectId_of_hex store_up (with_session GET_login)
           sample_world).
  reflexivity.
Defined.

Lemma post_login_outcomes_sample :
  app ObjectId_of_hex store_up (login_as "admin1" "password1") sample_world
  = (Resolved (login_success ∅), connected sample_world).
Proof.
  apply (post_login_outcomes ObjectId_of_hex store_up (login_as "admin1" "password1")
           sample_world).
  - reflexivity.
  - reflexivity.
  - exists {| username := "admin1"; password := "password1" |}.
    split; [|split]; [| reflexivity | reflexivity].
    apply list_elem_of_In. left. reflexivity.
Defined.

(** Matching credentials, store unreachable: the answer is neither the
    success with its cookie nor the 401. *)
Lemma login_with_store_down :
  credentials_match (process_env store_down) (JsString "admin1") (JsString "password1")
  /\ app ObjectId_of_hex store_down (login_as "admin1" "password1") sample_world
     = (Resolved (json_error 500 "Database connection failed"), sample_world).
Proof.
  split.
  - exists {| username := "admin1"; password := "password1" |}.
    split; [|split]; [| reflexivity | reflexivity].
    apply list_elem_of_In. left. reflexivity.
  - vm_compute. reflexivity.
Qed.

Lemma list_routes_select_and_order_sample :
  exists l,
    app ObjectId_of_hex store_up (with_session GET_api_appointments) sample_accepted
    = (Resolved (json_ok (Json_docs l)), connected sample_accepted)
    /\ NoDup l
    /\ (forall d, d ∈ l <->
                  appointments sample_accepted !! d.1 = Some d.2 /\ status d.2 = accepted)
    /\ StronglySorted date_time_asc l.
Proof.
  apply (list_routes_select_and_order ObjectId_of_hex store_up
           (with_session GET_api_appointments) sample_accepted); reflexivity.
Defined.

(** Two accepted appointments on one date, at 10:00 and at 9:30: the list
    has the 10:00 one first. *)
Lemma accepted_list_orders_time_as_text :
  app ObjectId_of_hex store_up (with_session GET_api_appointments) sample_accepted
  = (Resolved (json_ok (Json_docs [(id_ann, set_status accepted ann); (id_bob, bob)])),
     sample_accepted)
  /\ date (set_status accepted ann) = date bob
  /\ time (set_status accepted ann) = "10:00"
  /\ time bob = "9:30".
Proof. vm_compute. repeat split; reflexivity. Qed.

Lemma status_never_back_to_pending_sample :
  appointments sample_world !! id_cyd = Some cyd
  /\ appointments
       (serve ObjectId_of_hex
          [(store_up, with_session (POST_api_requests_accept id_cyd));
           (store_up, with_session (POST_api_appointments_done id_cyd))]
          sample_world).2 !! id_cyd = Some (set_status done cyd)
  /\ status cyd <> pending
  /\ status (set_status done cyd) <> pending.
Proof.
  assert (H : appointments sample_world !! id_cyd = Some cyd) by reflexivity.
  assert (H' : appointments
                 (serve ObjectId_of_hex
                    [(store_up, with_session (POST_api_requests_accept id_cyd));
                     (store_up, with_session (POST_api_appointments_done id_cyd))]
                    sample_world).2 !! id_cyd = Some (set_status done cyd))
    by (vm_compute; reflexivity).
  assert (Hp : status cyd <> pending) by discriminate.
  split; [exact H|]. split; [exact H'|]. split; [exact Hp|].
  destruct (status_never_back_to_pending ObjectId_of_hex) as [_ Hseq].
  exact (Hseq _ sample_world id_cyd cyd _ H H' Hp).
Defined.

(** Accept, complete, accept again: the record goes pending, accepted,
    done, and back to accepted. *)
Lemma accept_after_done_reopens :
  status <$> appointments sample_world !! id_ann = Some pending
  /\ status <$> appointments (serve ObjectId_of_hex [accept_ann] sample_world).2 !! id_ann
     = Some accepted
  /\ status <$> appointments
                  (serve ObjectId_of_hex [accept_ann; complete_ann] sample_world).2 !! id_ann
     = Some done
  /\ status <$> appointments
                  (serve ObjectId_of_hex [accept_ann; complete_ann; accept_ann]
                     sample_world).2 !! id_ann
     = Some accepted.
Proof. vm_compute. repeat split; reflexivity. Qed.

Lemma accept_unknown_id_sample :
  ObjectId_of_hex id_nobody = Some id_nobody
  /\ appointments sample_world !! id_nobody = None
  /\ app ObjectId_of_hex store_up (with_session (POST_api_requests_accept id_nobody))
       sample_world
     = (Resolved (json_error 404 "Appointment not found"), connected sample_world).
Proof.
  assert (Hc : ObjectId_of_hex id_nobody = Some id_nobody) by reflexivity.
  assert (Hn : forall oid,
             ObjectId_of_hex id_nobody = Some oid -> appointments sample_world !! oid = None).
  { intros oid E. rewrite Hc in E. inversion E. reflexivity. }
  split; [exact Hc|]. split; [reflexivity|].
  destruct (accept_unknown_id ObjectId_of_hex store_up
              (with_session (POST_api_requests_accept id_nobody)) sample_world id_nobody
              eq_refl Hn) as [_ H].
  destruct (H eq_refl eq_refl) as [H404 _].
  exact (H404 id_nobody Hc eq_refl).
Defined.

(** An id that cannot be cast names no stored record, and accepting it is
    answered 500, not 404. *)
Lemma accept_of_uncastable_id :
  ObjectId_of_hex id_abc = None
  /\ appointments sample_world !! id_abc = None
  /\ app ObjectId_of_hex store_up (with_session (POST_api_requests_accept id_abc))
       sample_world
     = (Resolved (json_error 500 "Failed to accept appointment"), connected sample_world).
Proof. vm_compute. repeat split; reflexivity. Qed.

Lemma accept_ignores_current_status_sample :
  app ObjectId_of_hex store_up (with_session (POST_api_requests_accept id_ann_upper))
    sample_world
  = (Resolved (json_ok (Json_success_appointment (id_ann, set_status accepted ann))),
     with_appointments (connected sample_world)
       (<[id_ann := set_status accepted ann]> (appointments sample_world))).
Proof.
  destruct (accept_ignores_current_status ObjectId_of_hex store_up
              (with_session (POST_api_requests_accept id_ann_upper)) sample_world
              id_ann_upper eq_refl eq_refl eq_refl eq_refl) as [H _].
  exact (proj1 (H id_ann ann eq_refl eq_refl)).
Defined.

(** Accepting a record that is done answers 200 and stores it as accepted. *)
Lemma accept_of_done_record :
  status cyd = done
  /\ (app ObjectId_of_hex store_up (with_session (POST_api_requests_accept id_cyd))
        sample_world).1
     = Resolved (json_ok (Json_success_appointment (id_cyd, set_status accepted cyd)))
  /\ appointments
       (app ObjectId_of_hex store_up (with_session (POST_api_requests_accept id_cyd))
          sample_world).2
       !! id_cyd
     = Some (set_status accepted cyd).
Proof. vm_compute. repeat split; reflexivity. Qed.

Lemma reject_deletes_whatever_status_sample :
  exists r w',
    app ObjectId_of_hex store_up (with_session (POST_api_requests_reject id_cyd))
      sample_world
    = (Resolved r, w')
    /\ r = json_ok Json_success
    /\ appointments w' = delete id_cyd (appointments sample_world).
Proof.
  destruct (reject_deletes_whatever_status ObjectId_of_hex store_up
              (with_session (POST_api_requests_reject id_cyd)) sample_world id_cyd
              eq_refl eq_refl eq_refl eq_refl)
    as (r & w' & Happ & _ & _ & _ & Hdel).
  destruct (Hdel id_cyd cyd eq_refl eq_refl) as (Hr & Hw & _).
  exists r, w'. auto.
Defined.

(** No record has the id, it cannot even be cast, and rejecting it is
    answered 500, not 404. *)
Lemma reject_of_uncastable_id :
  ObjectId_of_hex id_abc = None
  /\ appointments sample_world !! id_abc = None
  /\ app ObjectId_of_hex store_up (with_session (POST_api_requests_reject id_abc))
       sample_world
     = (Resolved (json_error 500 "Failed to reject appointment"), connected sample_world).
Proof. vm_compute. repeat split; reflexivity. Qed.

Lemma api_outcome_mapping_sample :
  exists r w',
    app ObjectId_of_hex store_down (with_session GET_api_requests) sample_world
    = (Resolved r, w')
    /\ r = json_error 500 "Database connection failed".
Proof.
  destruct (api_outcome_mapping ObjectId_of_hex store_down
              (with_session GET_api_requests) sample_world eq_refl eq_refl)
    as (r & w' & Happ & Hdown & _).
  exists r, w'. split; [exact Happ|]. apply Hdown. reflexivity.
Defined.

Lemma update_touches_status_only_sample :
  exists oid a a',
    ObjectId_of_hex id_bob = Some oid
    /\ appointments sample_world !! oid = Some a
    /\ appointments
         (app ObjectId_of_hex store_up (with_session (POST_api_appointments_done id_bob))
            sample_world).2
         !! oid = Some a'
    /\ status a' = done
    /\ name a' = name a /\ email a' = email a /\ phone a' = phone a
    /\ service a' = service a /\ date a' = date a /\ time a' = time a
    /\ createdAt a' = createdAt a
    /\ (forall j, j <> oid ->
          appointments
            (app ObjectId_of_hex store_up
               (with_session (POST_api_appointments_done id_bob)) sample_world).2
            !! j = appointments sample_world !! j)
    /\ payload (json_ok (Json_success_appointment (id_bob, set_status done bob)))
       = Json_success_appointment (oid, a').
Proof.
  apply (update_touches_status_only ObjectId_of_hex store_up
           (with_session (POST_api_appointments_done id_bob)) sample_world id_bob done
           (json_ok (Json_success_appointment (id_bob, set_status done bob)))).
  - right. split; reflexivity.
  - vm_compute. reflexivity.
  - reflexivity.
Defined.

(** ** The further properties on the sample data *)

Lemma only_login_and_logout_write_the_cookie_sample :
  (route (login_as "admin1" "password1") = POST_login
   /\ login_success ∅ = login_success (process_env store_up))
  \/ (route (login_as "admin1" "password1") = POST_logout
      /\ login_success ∅ = logout_response).
Proof.
  apply (only_login_and_logout_write_the_cookie ObjectId_of_hex store_up
           (login_as "admin1" "password1") sample_world (connected sample_world)).
  - vm_compute. reflexivity.
  - vm_compute. discriminate.
Defined.

Lemma collection_changes_only_on_success_sample :
  statusCode (json_ok (Json_success_appointment (id_ann, set_status accepted ann))) = 200
  /\ isLoggedIn (with_session (POST_api_requests_accept id_ann)) = JsString "true"
  /\ exists oid,
       target_id ObjectId_of_hex (route (with_session (POST_api_requests_accept id_ann)))
       = Some oid
       /\ is_Some (appointments sample_world !! oid).
Proof.
  apply (collection_changes_only_on_success ObjectId_of_hex store_up
           (with_session (POST_api_requests_accept id_ann)) sample_world sample_accepted).
  - vm_compute. reflexivity.
  - intros H. apply (f_equal (fun m => status <$> m !! id_ann)) in H.
    vm_compute in H. discriminate.
Defined.

Lemma anonymous_requests_see_and_change_nothing_sample :
  appointments
    (serve ObjectId_of_hex
       [(store_up, without_session (POST_api_requests_reject id_ann));
        (store_up, without_session GET_api_requests)] sample_world).2
  = appointments sample_world
  /\ Forall (fun o => exists r, o = Resolved r /\ ~ carries_appointments (payload r))
       (serve ObjectId_of_hex
          [(store_up, without_session (POST_api_requests_reject id_ann));
           (store_up, without_session GET_api_requests)] sample_world).1.
Proof.
  apply anonymous_requests_see_and_change_nothing.
  repeat constructor; intros H; vm_compute in H; discriminate.
Defined.

Lemma cached_connection_is_kept_sample :
  is_Some (cachedDb
             (serve ObjectId_of_hex [(store_down, with_session GET_api_requests)]
                (connected sample_world)).2).
Proof.
  apply cached_connection_is_kept. exists MongooseConnection. reflexivity.
Defined.

Lemma only_the_status_is_ever_written_sample :
  appointments sample_world !! id_ann = Some ann
  /\ appointments (serve ObjectId_of_hex [accept_ann; complete_ann] sample_world).2
       !! id_ann
     = Some (set_status done ann)
  /\ name (set_status done ann) = name ann.
Proof.
  assert (H : appointments sample_world !! id_ann = Some ann) by reflexivity.
  assert (H' : appointments
                 (serve ObjectId_of_hex [accept_ann; complete_ann] sample_world).2
                 !! id_ann
               = Some (set_status done ann)) by (vm_compute; reflexivity).
  split; [exact H|]. split; [exact H'|].
  exact (proj1 (only_the_status_is_ever_written ObjectId_of_hex _ _ _ _ _ H H')).
Defined.

Lemma session_cookie_round_trip_sample :
  requireAuth store_up (with_session GET_home) sample_world
  = (Resolved Next, sample_world).
Proof.
  assert (Happ : app ObjectId_of_hex store_up (login_as "admin1" "password1") sample_world
                 = (Resolved (login_success ∅), connected sample_world))
    by (vm_compute; reflexivity).
  destruct (session_cookie_round_trip ObjectId_of_hex _ _ _ _ _ Happ) as [Hset _].
  eapply (Hset "isLoggedIn" "true").
  - apply list_elem_of_singleton. reflexivity.
  - reflexivity.
Defined.

Lemma login_and_pages_do_not_bounce_sample :
  (app ObjectId_of_hex store_up (with_session GET_login) sample_world
   = (Resolved home_redirect, sample_world)
   /\ app ObjectId_of_hex store_up (with_session GET_home) sample_world
      = (Resolved (json_ok (File (page_file (route (with_session GET_home))))),
         sample_world))
  \/ (app ObjectId_of_hex store_up (with_session GET_login) sample_world
      = (Resolved login_page, sample_world)
      /\ app ObjectId_of_hex store_up (with_session GET_home) sample_world
         = (Resolved login_redirect, sample_world)).
Proof.
  apply login_and_pages_do_not_bounce; reflexivity.
Defined.

Lemma login_needs_two_nonempty_strings_sample :
  exists u p,
    prop (body (login_as "admin1" "password1")) "username" = JsString u
    /\ prop (body (login_as "admin1" "password1")) "password" = JsString p
    /\ u <> "" /\ p <> "".
Proof.
  apply (login_needs_two_nonempty_strings ObjectId_of_hex store_up
           (login_as "admin1" "password1") sample_world (connected sample_world)
           (login_success ∅)).
  - reflexivity.
  - vm_compute. reflexivity.
  - reflexivity.
Defined.

Lemma empty_variables_leave_the_defaults_sample :
  app ObjectId_of_hex store_up (login_as "admin2" "password2") sample_world
  = (Resolved (login_success (process_env store_up)), connected sample_world).
Proof.
  apply (empty_variables_leave_the_defaults ObjectId_of_hex store_up
           (login_as "admin2" "password2") sample_world eq_refl eq_refl);
    try (left; reflexivity); reflexivity.
Defined.

Lemma requests_on_different_records_commute_sample :
  appointments
    (serve ObjectId_of_hex
       [(store_up, with_session (POST_api_requests_accept id_ann_upper));
        (store_up, with_session (POST_api_requests_reject id_cyd))] sample_world).2
  = appointments
      (serve ObjectId_of_hex
         [(store_up, with_session (POST_api_requests_reject id_cyd));
          (store_up, with_session (POST_api_requests_accept id_ann_upper))]
         sample_world).2.
Proof.
  apply requests_on_different_records_commute; try reflexivity.
  intros oid H1 H2. vm_compute in H1, H2. congruence.
Defined.

Lemma repeating_an_update_changes_nothing_sample :
  appointments
    (app ObjectId_of_hex store_up (with_session (POST_api_appointments_done id_cyd))
       sample_world).2
  = appointments sample_world
  /\ (takes_effect store_up (with_session (POST_api_appointments_done id_cyd))
        sample_world = true ->
      (app ObjectId_of_hex store_up (with_session (POST_api_appointments_done id_cyd))
         sample_world).1
      = Resolved (json_ok (Json_success_appointment (id_cyd, cyd)))).
Proof.
  apply (repeating_an_update_changes_nothing ObjectId_of_hex store_up
           (with_session (POST_api_appointments_done id_cyd)) sample_world
           id_cyd id_cyd cyd).
  - reflexivity.
  - reflexivity.
  - right. split; reflexivity.
Defined.

Lemma a_rejected_record_never_returns_sample :
  exists oid,
    ObjectId_of_hex id_cyd = Some oid
    /\ appointments (serve ObjectId_of_hex [accept_ann] sample_without_cyd).2 !! oid = None.
Proof.
  assert (Happ : app ObjectId_of_hex store_up
                   (with_session (POST_api_requests_reject id_cyd)) sample_world
                 = (Resolved (json_ok Json_success), sample_without_cyd))
    by (vm_compute; reflexivity).
  destruct (a_rejected_record_never_returns ObjectId_of_hex store_up
              (with_session (POST_api_requests_reject id_cyd)) sample_world
              sample_without_cyd (json_ok Json_success) id_cyd [accept_ann]
              eq_refl Happ eq_refl) as (oid & Ho & Hgone & _).
  exists oid. auto.
Defined.

Lemma lists_are_disjoint_and_cover_sample :
  (length (listing pending sort_createdAt_desc None (appointments sample_world))
   + length (listing accepted sort_date_time_asc None (appointments sample_world))
   + length (listing done sort_createdAt_desc (Some 50%nat) (appointments sample_world))
   = size (appointments sample_world))%nat.
Proof.
  destruct (lists_are_disjoint_and_cover store_up sample_world sample_world
              sample_world sample_world _ _ _ eq_refl eq_refl eq_refl)
    as (_ & _ & _ & _ & H).
  apply H. vm_compute. lia.
Defined.

Lemma recent_list_keeps_the_newest_sample :
  length (listing done sort_createdAt_desc (Some 50%nat) (appointments crowd_world))
  = 50%nat.
Proof.
  refine (proj1 (recent_list_keeps_the_newest store_up crowd_world crowd_world
                   _ (crowd_id 0) (crowd_member 0) eq_refl _ eq_refl _)).
  - vm_compute. reflexivity.
  - apply (proj1 (bool_decide_eq_false
                    ((crowd_id 0, crowd_member 0)
                     ∈ listing done sort_createdAt_desc (Some 50%nat)
                         (appointments crowd_world)))).
    vm_compute. reflexivity.
Defined.

Lemma a_started_server_reuses_its_connection_sample :
  exists w,
    main store_up (appointments sample_world) = Listening w
    /\ appointments w = appointments sample_world
    /\ forall reqs env' req',
         readyState env' = 1 ->
         ensureDbConnection env' req' (serve ObjectId_of_hex reqs w).2
         = (Resolved Next, (serve ObjectId_of_hex reqs w).2).
Proof.
  apply (a_started_server_reuses_its_connection ObjectId_of_hex store_up
           (appointments sample_world)).
  reflexivity.
Defined.

Lemma a_failed_connection_changes_nothing_sample :
  sample_world = sample_world /\ db_available store_down sample_world = false.
Proof.
  apply (a_failed_connection_changes_nothing ObjectId_of_hex store_down
           (with_session GET_api_requests) sample_world sample_world
           (json_error 500 "Database connection failed")).
  - vm_compute. reflexivity.
  - reflexivity.
Defined.

Lemma accepted_then_completed_is_listed_sample :
  exists l,
    (serve ObjectId_of_hex
       [(store_up, with_session (POST_api_requests_accept id_ann_upper));
        complete_ann;
        (store_up, with_session GET_api_recent_appointments)]
       sample_world).1 !! 2%nat
    = Some (Resolved (json_ok (Json_docs l)))
    /\ (id_ann, set_status done ann) ∈ l.
Proof.
  apply (accepted_then_completed_is_listed ObjectId_of_hex store_up store_up store_up
           (with_session (POST_api_requests_accept id_ann_upper))
           (with_session (POST_api_appointments_done id_ann))
           (with_session GET_api_recent_appointments) sample_world
           id_ann_upper id_ann id_ann ann);
    try reflexivity.
  vm_compute. lia.
Defined.
